(** * RPiGPIO_pig.c -- the pigpio command dispatcher of Psychtoolbox-3

    A shallow embedding of [Psychtoolbox/PsychContributed/RPiGPIO_pig.c]:
    the two file-level globals, the interrupt callback, the exit hook and
    [mexFunction], the single entry point called by Octave.

    The pigpio library is external to the repository.  It is taken as an
    interface ([Backend]): every library call is answered by the backend
    from its own state, and the calls are recorded, with their return
    codes, in the trace of the run.  [mexErrMsgTxt] never returns to its
    caller; it is the [Abort] outcome.  The busy-wait loop of command 5
    may run forever; it is unrolled with fuel and [Spin] is the outcome of
    a loop that is still waiting when the fuel is gone. *)

From Stdlib Require Import ZArith List String Bool Lia.
Import ListNotations.
Local Open Scope string_scope.
Local Open Scope list_scope.
Local Open Scope Z_scope.

(** ** Symbolic constants of pigpio.h

    pigpio.h is not part of the sources; the code only passes these
    constants through by name, so they are kept as enumerations. *)

Inductive pin_mode : Type := PI_INPUT | PI_OUTPUT.
Inductive pull_mode : Type := PI_PUD_OFF | PI_PUD_DOWN | PI_PUD_UP.
Inductive edge : Type := RISING_EDGE | FALLING_EDGE | EITHER_EDGE.

(** The function pointers the program hands out: [isrCallback] to
    [gpioSetISRFunc] and [exitfunc] to [mexAtExit]. *)
Inductive isr_func : Type := IsrCallback.
Inductive exit_func : Type := Exitfunc.

(** The pigpio entry points used by the file, with their arguments. *)
Inductive call : Type :=
| GpioInitialise
| GpioTerminate
| GpioHardwareRevision
| GpioRead (pin : Z)
| GpioWrite (pin level : Z)
| GpioGetPWMrange (pin : Z)
| GpioSetPWMrange (pin range : Z)
| GpioPWM (pin duty : Z)
| GpioSetMode (pin : Z) (m : pin_mode)
| GpioSetPullUpDown (pin : Z) (p : pull_mode)
| GpioSetISRFunc (pin : Z) (e : edge) (timeout : Z) (f : option isr_func).

(** What can be observed of a run.  [isrDone] is declared [volatile], so
    its reads and writes by the calling thread are observable, as are the
    callback invocations made by the backend's interrupt thread. *)
Inductive event : Type :=
| Call (c : call) (rc : Z)
| AtExit (f : exit_func)
| Usage
| Vstore (v : Z)
| Vload (v : Z)
| Isr (f : isr_func) (gpio level tick : Z).

(** An interrupt report: the callback to run and its three arguments. *)
Definition isr_report : Type := (isr_func * (Z * Z * Z))%type.

(** ** The backend interface

    [respond c w] is the return code of call [c] in backend state [w] and
    the backend state after the call.  [deliver w] says whether the
    interrupt thread invokes a callback before the caller's next look at
    [isrDone]. *)
Class Backend (W : Type) : Type := {
  respond : call -> W -> Z * W;
  deliver : W -> option isr_report * W
}.

Definition answer {W} `{Backend W} (c : call) (w : W) : Z := fst (respond c w).
Definition after {W} `{Backend W} (c : call) (w : W) : W := snd (respond c w).

(** ** Outcomes *)

Inductive outcome (A : Type) : Type :=
| Ret (a : A)
| Abort (msg : string)
| Spin.
Arguments Ret {A} a.
Arguments Abort {A} msg.
Arguments Spin {A}.

Definition is_abort {A} (o : outcome A) : bool :=
  match o with Abort _ => true | _ => false end.

Definition is_ret {A} (o : outcome A) : bool :=
  match o with Ret _ => true | _ => false end.

(** [uint32_t version]: the revision is stored in an unsigned 32-bit
    variable before it is converted to [double]. *)
Definition to_uint32 (z : Z) : Z := z mod 2 ^ 32.

(** The sentinel of [isrDone] and of an omitted third argument. *)
Definition SENTINEL : Z := -1000.

Section Machine.

Context {W : Type} `{BW : Backend W}.

(** ** Program state

    [firstTime] and [isrDone] are the two [static] globals; [atExit] is
    the hook registered with the host; [plhs0] is the result slot
    [plhs[0]] of the current call; [world] is the backend. *)
Record state : Type := mkState {
  firstTime : bool;
  isrDone : Z;
  atExit : option exit_func;
  plhs0 : option Z;
  world : W
}.

Definition initial_state (w : W) : state :=
  mkState true SENTINEL None None w.

Definition set_firstTime (b : bool) (s : state) : state :=
  mkState b (isrDone s) (atExit s) (plhs0 s) (world s).
Definition set_isrDone (v : Z) (s : state) : state :=
  mkState (firstTime s) v (atExit s) (plhs0 s) (world s).
Definition set_atExit (f : exit_func) (s : state) : state :=
  mkState (firstTime s) (isrDone s) (Some f) (plhs0 s) (world s).
Definition set_plhs0 (v : option Z) (s : state) : state :=
  mkState (firstTime s) (isrDone s) (atExit s) v (world s).
Definition set_world (w : W) (s : state) : state :=
  mkState (firstTime s) (isrDone s) (atExit s) (plhs0 s) w.

(** ** The monad: state, trace and the three outcomes *)

Definition run (A : Type) : Type := (outcome A * state * list event)%type.
Definition M (A : Type) : Type := state -> run A.

Definition outcome_of {A} (r : run A) : outcome A := fst (fst r).
Definition final {A} (r : run A) : state := snd (fst r).
Definition trace_of {A} (r : run A) : list event := snd r.

Definition ret {A} (a : A) : M A := fun s => (Ret a, s, []).

Definition bind {A B} (m : M A) (f : A -> M B) : M B :=
  fun s =>
    match m s with
    | (Ret a, s1, t1) =>
        let r := f a s1 in (outcome_of r, final r, t1 ++ trace_of r)
    | (Abort msg, s1, t1) => (Abort msg, s1, t1)
    | (Spin, s1, t1) => (Spin, s1, t1)
    end.

Notation "x <- m ;; k" := (bind m (fun x => k))
  (at level 61, m at next level, right associativity).
Notation "m ;; k" := (bind m (fun _ => k))
  (at level 61, right associativity).

Definition when (b : bool) (m : M unit) : M unit :=
  if b then m else ret tt.

Definition emit (e : event) : M unit := fun s => (Ret tt, s, [e]).

(** ** Host (MEX) primitives *)

Definition mexErrMsgTxt {A} (msg : string) : M A := fun s => (Abort msg, s, []).

Definition mexAtExit (f : exit_func) : M unit :=
  fun s => (Ret tt, set_atExit f s, [AtExit f]).

(** [plhs[0] = mxCreateDoubleMatrix(1, 1, mxREAL)]: a fresh 1x1 matrix
    holding 0. *)
Definition mxCreateDoubleMatrix : M unit :=
  fun s => (Ret tt, set_plhs0 (Some 0) s, []).

(** [*(mxGetPr(plhs[0])) = (double) v]. *)
Definition write_plhs0 (v : Z) : M unit :=
  fun s => (Ret tt, set_plhs0 (Some v) s, []).

(** The usage text, lines 83-111 (a run of [mexPrintf] calls). *)
Definition print_usage : M unit := emit Usage.

(** ** pigpio calls *)

Definition pigpio (c : call) : M Z :=
  fun s => (Ret (answer c (world s)),
            set_world (after c (world s)) s,
            [Call c (answer c (world s))]).

Definition gpioInitialise : M Z := pigpio GpioInitialise.
Definition gpioTerminate : M Z := pigpio GpioTerminate.
Definition gpioHardwareRevision : M Z := pigpio GpioHardwareRevision.
Definition gpioRead (pin : Z) : M Z := pigpio (GpioRead pin).
Definition gpioWrite (pin level : Z) : M Z := pigpio (GpioWrite pin level).
Definition gpioGetPWMrange (pin : Z) : M Z := pigpio (GpioGetPWMrange pin).
Definition gpioSetPWMrange (pin range : Z) : M Z :=
  pigpio (GpioSetPWMrange pin range).
Definition gpioPWM (pin duty : Z) : M Z := pigpio (GpioPWM pin duty).
Definition gpioSetMode (pin : Z) (m : pin_mode) : M Z :=
  pigpio (GpioSetMode pin m).
Definition gpioSetPullUpDown (pin : Z) (p : pull_mode) : M Z :=
  pigpio (GpioSetPullUpDown pin p).
Definition gpioSetISRFunc (pin : Z) (e : edge) (timeout : Z)
    (f : option isr_func) : M Z :=
  pigpio (GpioSetISRFunc pin e timeout f).

(** ** The globals and the callback (lines 37-49) *)

(** [void isrCallback(int gpio, int level, uint32_t tick) { isrDone = level; }] *)
Definition isrCallback (gpio level tick : Z) : M unit :=
  fun s => (Ret tt, set_isrDone level s, [Isr IsrCallback gpio level tick]).

Definition invoke_isr (f : isr_func) : Z -> Z -> Z -> M unit :=
  match f with IsrCallback => isrCallback end.

(** The interrupt thread runs between two accesses of the caller: a
    pending report is served before the caller reads [isrDone]. *)
Definition serve_interrupt : M unit :=
  fun s =>
    let s1 := set_world (snd (deliver (world s))) s in
    match fst (deliver (world s)) with
    | Some (f, (gpio, level, tick)) => invoke_isr f gpio level tick s1
    | None => (Ret tt, s1, [])
    end.

Definition read_isrDone : M Z :=
  serve_interrupt ;; (fun s => (Ret (isrDone s), s, [Vload (isrDone s)])).

Definition write_isrDone (v : Z) : M unit :=
  fun s => (Ret tt, set_isrDone v s, [Vstore v]).

(** [void exitfunc(void) { gpioTerminate(); firstTime = 1; }] *)
Definition exitfunc : M unit :=
  _ <- gpioTerminate ;;
  fun s => (Ret tt, set_firstTime true s, []).

(** What the host does when the MEX file is flushed: it runs the hook
    registered with [mexAtExit], if any, and forgets it. *)
Definition mex_flush : M unit :=
  fun s =>
    match atExit s with
    | Some Exitfunc =>
        (exitfunc ;;
         (fun s' => (Ret tt,
                     mkState (firstTime s') (isrDone s') None (plhs0 s')
                       (world s'), []))) s
    | None => ret tt s
    end.

(** ** [mexFunction] *)

(** Lines 62-72: lazy initialisation. *)
Definition init_phase : M unit :=
  fun s =>
    (if firstTime s then
       rc <- gpioInitialise ;;
       when (rc <? 0)
         (mexErrMsgTxt "Failed to initialize GPIO system with pigpio.") ;;
       mexAtExit Exitfunc ;;
       (fun s' => (Ret tt, set_firstTime false s', []))
     else ret tt) s.

(** Lines 75-80: the revision query. *)
Definition query_revision : M unit :=
  version <- gpioHardwareRevision ;;
  mxCreateDoubleMatrix ;;
  write_plhs0 (to_uint32 version).

(** Line 186: [while (isrDone == -1000);] *)
Fixpoint busy_wait (fuel : nat) : M unit :=
  match fuel with
  | O => fun s => (Spin, s, [])
  | S n =>
      v <- read_isrDone ;;
      if v =? SENTINEL then busy_wait n else ret tt
  end.

(** Lines 128-132. *)
Definition case_read (pin : Z) : M unit :=
  rc <- gpioRead pin ;;
  mxCreateDoubleMatrix ;;
  write_plhs0 rc.

(** Lines 134-139. *)
Definition case_write (pin arg : Z) : M unit :=
  when (arg <? 0)
    (mexErrMsgTxt "New logic level of output pin missing for output pin write.") ;;
  _ <- gpioWrite pin arg ;;
  ret tt.

(** Lines 148-150: force the PWM range to 1024. *)
Definition fix_pwm_range (pin : Z) : M unit :=
  r <- gpioGetPWMrange pin ;;
  if r =? 1024 then ret tt
  else (_ <- gpioSetPWMrange pin 1024 ;; ret tt).

(** Lines 141-156. *)
Definition case_pwm (pin arg : Z) : M unit :=
  when (arg <? 0)
    (mexErrMsgTxt "New pwm level of output pin missing for output pin pulse-width modulation.") ;;
  when (1024 <? arg)
    (mexErrMsgTxt "Invalid pwm level specified. Must be in range 0 - 1024.") ;;
  fix_pwm_range pin ;;
  rc <- gpioPWM pin arg ;;
  when (rc <? 0)
    (mexErrMsgTxt "Failed to set new pwm level of output pin for output pin pulse-width modulation.").

(** Lines 158-163. *)
Definition case_mode (pin arg : Z) : M unit :=
  when (arg <? 0)
    (mexErrMsgTxt "New opmode for pin missing for pin mode configuration.") ;;
  _ <- gpioSetMode pin (if arg =? 0 then PI_INPUT else PI_OUTPUT) ;;
  ret tt.

(** Line 169: [(arg==0) ? PI_PUD_OFF : ((arg>0) ? PI_PUD_UP : PI_PUD_DOWN)]. *)
Definition pull_of (arg : Z) : pull_mode :=
  if arg =? 0 then PI_PUD_OFF
  else if 0 <? arg then PI_PUD_UP else PI_PUD_DOWN.

(** Lines 165-170. *)
Definition case_pull (pin arg : Z) : M unit :=
  when (arg <? -1)
    (mexErrMsgTxt "New pullup/down for pin missing for pin resistor configuration.") ;;
  _ <- gpioSetPullUpDown pin (pull_of arg) ;;
  ret tt.

(** Lines 172-194. *)
Definition case_edge_wait (fuel : nat) (pin arg : Z) : M unit :=
  when (arg <? -1)
    (mexErrMsgTxt "Timeout value in milliseconds missing.") ;;
  mxCreateDoubleMatrix ;;
  write_isrDone SENTINEL ;;
  rc <- gpioSetISRFunc pin EITHER_EDGE arg (Some IsrCallback) ;;
  when (negb (rc =? 0)) (write_plhs0 (-1)) ;;
  busy_wait fuel ;;
  _ <- gpioSetISRFunc pin EITHER_EDGE arg None ;;
  v <- read_isrDone ;;
  write_plhs0 (if v =? 2 then 0 else 1).

(** Lines 127-198: the [switch]. *)
Definition dispatch (fuel : nat) (cmd pin arg : Z) : M unit :=
  if cmd =? 0 then case_read pin
  else if cmd =? 1 then case_write pin arg
  else if cmd =? 2 then case_pwm pin arg
  else if cmd =? 3 then case_mode pin arg
  else if cmd =? 4 then case_pull pin arg
  else if cmd =? 5 then case_edge_wait fuel pin arg
  else mexErrMsgTxt "Unknown command code provided!".

(** The third argument as line 122-125 reads it. *)
Definition third_arg (prhs : list Z) : Z :=
  if 2 <? Z.of_nat (List.length prhs) then nth 2 prhs 0 else SENTINEL.

(** [void mexFunction(int nlhs, mxArray *plhs[], int nrhs, const mxArray *prhs[])].
    [prhs] holds the inputs as [(int) mxGetScalar] reads them and [nrhs]
    is its length. *)
Definition mexFunction (fuel : nat) (nlhs : Z) (prhs : list Z) : M unit :=
  let nrhs := Z.of_nat (List.length prhs) in
  init_phase ;;
  if (nrhs =? 0) && (nlhs =? 1) then query_revision
  else if nrhs <? 2 then print_usage
  else dispatch fuel (nth 0 prhs 0) (nth 1 prhs 0) (third_arg prhs).

End Machine.

Arguments state W : clear implicits.

(** ** The messages of [mexErrMsgTxt] *)

Definition init_msg : string :=
  "Failed to initialize GPIO system with pigpio.".
Definition write_missing_msg : string :=
  "New logic level of output pin missing for output pin write.".
Definition pwm_missing_msg : string :=
  "New pwm level of output pin missing for output pin pulse-width modulation.".
Definition pwm_invalid_msg : string :=
  "Invalid pwm level specified. Must be in range 0 - 1024.".
Definition pwm_failed_msg : string :=
  "Failed to set new pwm level of output pin for output pin pulse-width modulation.".
Definition mode_missing_msg : string :=
  "New opmode for pin missing for pin mode configuration.".
Definition pull_missing_msg : string :=
  "New pullup/down for pin missing for pin resistor configuration.".
Definition timeout_missing_msg : string :=
  "Timeout value in milliseconds missing.".
Definition unknown_msg : string := "Unknown command code provided!".

(** ** Reading a run *)

Definition calls (t : list event) : list call :=
  flat_map (fun e => match e with Call c _ => [c] | _ => [] end) t.

Definition loads (t : list event) : list Z :=
  flat_map (fun e => match e with Vload v => [v] | _ => [] end) t.

(** The events of the busy-wait: reads of [isrDone] and callbacks. *)
Definition is_poll_event (e : event) : bool :=
  match e with Vload _ | Isr _ _ _ _ => true | _ => false end.

Definition is_good_init (e : event) : bool :=
  match e with Call GpioInitialise rc => 0 <=? rc | _ => false end.

(** How many times the subsystem was brought up in a trace. *)
Definition good_inits (t : list event) : nat :=
  List.length (filter is_good_init t).

Section Host.

Context {W : Type} `{BW : Backend W}.

(** The [initialized] flag of the specification is the negation of the
    source's [firstTime]. *)
Definition initialized (s : state W) : bool := negb (firstTime s).

(** What the host can do with the loaded MEX file: call it, or flush it. *)
Inductive action : Type :=
| Invoke (fuel : nat) (nlhs : Z) (prhs : list Z)
| Flush.

(** A session: the actions of one host process in order.  Every call gets
    a fresh result slot; an aborted call returns to the prompt; a call
    that spins never returns, and nothing after it happens. *)
Fixpoint session (acts : list action) (s : state W) : state W * list event :=
  match acts with
  | [] => (s, [])
  | Invoke fuel nlhs prhs :: rest =>
      let r := mexFunction fuel nlhs prhs (set_plhs0 None s) in
      match outcome_of r with
      | Spin => (final r, trace_of r)
      | _ => let r' := session rest (final r) in (fst r', trace_of r ++ snd r')
      end
  | Flush :: rest =>
      let r := mex_flush s in
      let r' := session rest (final r) in (fst r', trace_of r ++ snd r')
  end.

Definition is_invoke (a : action) : bool :=
  match a with Invoke _ _ _ => true | Flush => false end.

(** The backend state in which the dispatch starts. *)
Definition world_after_init (s : state W) : W :=
  if firstTime s then after GpioInitialise (world s) else world s.

(** The backend state at the moment [gpioPWM] is called (after lines
    148-150). *)
Definition world_at_pwm (pin : Z) (w : W) : W :=
  let w1 := after (GpioGetPWMrange pin) w in
  if answer (GpioGetPWMrange pin) w =? 1024 then w1
  else after (GpioSetPWMrange pin 1024) w1.

(** The PWM range of a pin as the backend reports it. *)
Definition pwm_range (pin : Z) (w : W) : Z := answer (GpioGetPWMrange pin) w.

Definition known_command (cmd : Z) : bool := (0 <=? cmd) && (cmd <=? 5).

(** The missing-argument message of commands 1, 2 and 3. *)
Definition missing_msg (cmd : Z) : string :=
  if cmd =? 1 then write_missing_msg
  else if cmd =? 2 then pwm_missing_msg
  else mode_missing_msg.


(** The state in which the busy-wait of command 5 starts (lines 176-183):
    the result matrix is created, [isrDone] is reset, the callback is
    registered, and -1 is stored in the result when that failed. *)
Definition armed (pin arg : Z) (s : state W) : state W :=
  let reg := GpioSetISRFunc pin EITHER_EDGE arg (Some IsrCallback) in
  let s1 := set_world (after reg (world s))
              (set_isrDone SENTINEL (set_plhs0 (Some 0) s)) in
  if answer reg (world s) =? 0 then s1 else set_plhs0 (Some (-1)) s1.

(** The state at the [k]-th look at [isrDone]: the interrupt thread has
    been served [k] times. *)
Fixpoint polled (k : nat) (s : state W) : state W :=
  match k with
  | O => s
  | S n => polled n (final (serve_interrupt s))
  end.

Definition is_isr (e : event) : bool :=
  match e with Isr _ _ _ _ => true | _ => false end.

(** A computation that leaves the set-up alone: it keeps [firstTime] and
    the exit hook, and it does not call [gpioInitialise]. *)
Definition keeps_setup {A} (m : M (W:=W) A) : Prop :=
  forall s,
    firstTime (final (m s)) = firstTime s
    /\ atExit (final (m s)) = atExit s
    /\ ~ In GpioInitialise (calls (trace_of (m s))).

(** What it takes of the backend for the range fix-up to work on a pin:
    asking for the range does not change it, and a request for range 1024
    is honoured. *)
Definition honours_range (pin : Z) : Prop :=
  (forall w, pwm_range pin (after (GpioGetPWMrange pin) w) = pwm_range pin w)
  /\ (forall w, pwm_range pin (after (GpioSetPWMrange pin 1024) w) = 1024).

(** A run that hands back one non-negative scalar after the revision
    query and no other backend call. *)
Definition returns_revision (r : run (W:=W) unit) : Prop :=
  exists v,
    0 <= v /\ outcome_of r = Ret tt /\ plhs0 (final r) = Some v
    /\ calls (trace_of r) = [GpioHardwareRevision].


(** When a call aborts, as the code decides it. *)
Definition aborts_when (prhs : list Z) (s : state W) : bool :=
  let cmd := nth 0 prhs 0 in
  let pin := nth 1 prhs 0 in
  let arg := third_arg prhs in
  (firstTime s && (answer GpioInitialise (world s) <? 0))
  || ((2 <=? Z.of_nat (List.length prhs))
      && (((cmd =? 1) && (arg <? 0))
          || ((cmd =? 2)
              && ((arg <? 0) || (1024 <? arg)
                  || (answer (GpioPWM pin arg)
                        (world_at_pwm pin (world_after_init s)) <? 0)))
          || ((cmd =? 3) && (arg <? 0))
          || ((cmd =? 4) && (arg <? -1))
          || ((cmd =? 5) && (arg <? -1))
          || negb (known_command cmd))).

(** The five reasons for an abort as the specification lists them:
    initialisation fails; the third argument of a command 1-5 is missing;
    the PWM duty is out of range; the backend PWM call reports failure;
    the command code is unknown. *)
Definition listed_abort_reason (prhs : list Z) (s : state W) : bool :=
  let cmd := nth 0 prhs 0 in
  let pin := nth 1 prhs 0 in
  let arg := nth 2 prhs 0 in
  let nrhs := Z.of_nat (List.length prhs) in
  (firstTime s && (answer GpioInitialise (world s) <? 0))
  || ((nrhs =? 2) && (1 <=? cmd) && (cmd <=? 5))
  || ((2 <? nrhs) && (cmd =? 2) && ((arg <? 0) || (1024 <? arg)))
  || ((2 <? nrhs) && (cmd =? 2)
      && (answer (GpioPWM pin arg) (world_at_pwm pin (world_after_init s)) <? 0))
  || ((2 <=? nrhs) && negb (known_command cmd)).

End Host.

(** ** A reference backend

    A small executable backend that follows the documented behaviour of
    pigpio, for running the dispatcher on concrete inputs: pins 0-53
    exist, PWM is available on pins 0-31 only, a callback fires only while
    it is registered, and level 2 reports a timeout. *)
Module Sim.

Record hw : Type := mkWorld {
  init_rc : Z;
  revision : Z;
  levels : list (Z * Z);
  ranges : list (Z * Z);
  handler : option (Z * isr_func);
  pending : list (option Z)
}.

Definition PI_BAD_USER_GPIO : Z := -2.
Definition PI_BAD_GPIO : Z := -3.
Definition PI_BAD_LEVEL : Z := -5.
Definition PI_BAD_DUTYCYCLE : Z := -8.
Definition PI_BAD_DUTYRANGE : Z := -21.
Definition PI_TIMEOUT : Z := 2.

Definition lookup (k : Z) (l : list (Z * Z)) (d : Z) : Z :=
  match find (fun p => fst p =? k) l with
  | Some p => snd p
  | None => d
  end.

Definition is_gpio (pin : Z) : bool := (0 <=? pin) && (pin <=? 53).
Definition is_user_gpio (pin : Z) : bool := (0 <=? pin) && (pin <=? 31).

Definition set_levels (l : list (Z * Z)) (w : hw) : hw :=
  mkWorld (init_rc w) (revision w) l (ranges w) (handler w) (pending w).
Definition set_ranges (l : list (Z * Z)) (w : hw) : hw :=
  mkWorld (init_rc w) (revision w) (levels w) l (handler w) (pending w).
Definition set_handler (h : option (Z * isr_func)) (w : hw) : hw :=
  mkWorld (init_rc w) (revision w) (levels w) (ranges w) h (pending w).
Definition set_pending (p : list (option Z)) (w : hw) : hw :=
  mkWorld (init_rc w) (revision w) (levels w) (ranges w) (handler w) p.

Definition sim_respond (c : call) (w : hw) : Z * hw :=
  match c with
  | GpioInitialise => (init_rc w, w)
  | GpioTerminate => (0, set_handler None w)
  | GpioHardwareRevision => (revision w, w)
  | GpioRead pin =>
      if is_gpio pin then (lookup pin (levels w) 0, w) else (PI_BAD_GPIO, w)
  | GpioWrite pin level =>
      if negb (is_gpio pin) then (PI_BAD_GPIO, w)
      else if (level =? 0) || (level =? 1)
           then (0, set_levels ((pin, level) :: levels w) w)
           else (PI_BAD_LEVEL, w)
  | GpioGetPWMrange pin =>
      if is_user_gpio pin then (lookup pin (ranges w) 255, w)
      else (PI_BAD_USER_GPIO, w)
  | GpioSetPWMrange pin range =>
      if negb (is_user_gpio pin) then (PI_BAD_USER_GPIO, w)
      else if (25 <=? range) && (range <=? 40000)
           then (range, set_ranges ((pin, range) :: ranges w) w)
           else (PI_BAD_DUTYRANGE, w)
  | GpioPWM pin duty =>
      if negb (is_user_gpio pin) then (PI_BAD_USER_GPIO, w)
      else if (0 <=? duty) && (duty <=? lookup pin (ranges w) 255) then (0, w)
           else (PI_BAD_DUTYCYCLE, w)
  | GpioSetMode pin _ => if is_gpio pin then (0, w) else (PI_BAD_GPIO, w)
  | GpioSetPullUpDown pin _ => if is_gpio pin then (0, w) else (PI_BAD_GPIO, w)
  | GpioSetISRFunc pin _ _ f =>
      if is_gpio pin then (0, set_handler (option_map (pair pin) f) w)
      else (PI_BAD_GPIO, w)
  end.

(** One slot of [pending] is consumed per look of the caller, while a
    callback is registered. *)
Definition sim_deliver (w : hw) : option isr_report * hw :=
  match handler w, pending w with
  | Some (pin, f), Some level :: rest =>
      (Some (f, (pin, level, 0)), set_pending rest w)
  | Some _, None :: rest => (None, set_pending rest w)
  | _, _ => (None, w)
  end.

#[global] Instance sim_backend : Backend hw := {
  respond := sim_respond;
  deliver := sim_deliver
}.

(** A freshly booted board of revision 0xa02082 on which pigpio comes up. *)
Definition board (pend : list (option Z)) : hw :=
  mkWorld 0 10494082 [] [] None pend.

(** A machine on which [gpioInitialise] fails (pigpio needs root). *)
Definition no_root : hw :=
  mkWorld (-1) 10494082 [] [] None [].

(** The state of a loaded MEX file after a successful first call. *)
Definition ready (w : hw) : state hw :=
  mkState false SENTINEL (Some Exitfunc) None w.

(** An idle, initialised board, and one on which an edge is reported at
    the third look. *)
Definition idle : state hw := ready (board []).
Definition edge_at_third_look : state hw :=
  ready (board [None; None; Some 1]).

(** The registration call of command 5 on a pin. *)
Definition register (pin timeout : Z) : call :=
  GpioSetISRFunc pin EITHER_EDGE timeout (Some IsrCallback).

End Sim.

(** ** Further readings of a run *)

(** The life-cycle events of a trace: [true] for a [gpioInitialise] that
    succeeded, [false] for a [gpioTerminate]. *)
Definition lifecycle (t : list event) : list bool :=
  flat_map
    (fun e =>
       match e with
       | Call GpioInitialise rc => if 0 <=? rc then [true] else []
       | Call GpioTerminate _ => [false]
       | _ => []
       end) t.

(** Bring-ups and teardowns alternate: a bring-up only while the
    subsystem is down, a teardown only while it is up. *)
Fixpoint well_bracketed (up : bool) (l : list bool) : bool :=
  match l with
  | [] => true
  | b :: l' => xorb b up && well_bracketed b l'
  end.

(** Which calls leave a value in [plhs[0]] when they return: the revision
    query, and commands 0 and 5. *)
Definition assigns_result (nlhs : Z) (prhs : list Z) : bool :=
  let nrhs := Z.of_nat (List.length prhs) in
  ((nrhs =? 0) && (nlhs =? 1))
  || ((2 <=? nrhs) && ((nth 0 prhs 0 =? 0) || (nth 0 prhs 0 =? 5))).

(** The missing-argument message of commands 4 and 5. *)
Definition missing_msg45 (cmd : Z) : string :=
  if cmd =? 4 then pull_missing_msg else timeout_missing_msg.

Section Readings.

Context {W : Type} `{BW : Backend W}.

Definition has_result (s : state W) : bool :=
  match plhs0 s with Some _ => true | None => false end.

(** A computation that never makes the backend call [c0]. *)
Definition never_calls {A} (c0 : call) (m : M (W:=W) A) : Prop :=
  forall s, ~ In c0 (calls (trace_of (m s))).

(** The exit hook is registered exactly while the subsystem is up. *)
Definition hook_matches_flag (s : state W) : Prop :=
  atExit s = if firstTime s then None else Some Exitfunc.

(** A backend whose interrupt thread reports nothing at any look that
    follows state [s]. *)
Definition silent (s : state W) : Prop :=
  forall k, fst (deliver (world (polled k s))) = None.

End Readings.

(** * Properties *)

Section Dispatcher.

Context {W : Type} `{BW : Backend W}.

Implicit Types (s : state W) (t : list event) (prhs : list Z).

(** ** Running the monad *)

Lemma bind_ret {A B} (m : M A) (f : A -> M B) s a s1 t1 :
  m s = (Ret a, s1, t1) ->
  bind m f s = (outcome_of (f a s1), final (f a s1), t1 ++ trace_of (f a s1)).
Proof. intros E. unfold bind. now rewrite E. Qed.

Lemma bind_abort {A B} (m : M A) (f : A -> M B) s msg s1 t1 :
  m s = (Abort msg, s1, t1) -> bind m f s = (Abort msg, s1, t1).
Proof. intros E. unfold bind. now rewrite E. Qed.

Lemma bind_spin {A B} (m : M A) (f : A -> M B) s s1 t1 :
  m s = (Spin, s1, t1) -> bind m f s = (Spin, s1, t1).
Proof. intros E. unfold bind. now rewrite E. Qed.

Lemma run_eta {A} (r : run (W:=W) A) : (outcome_of r, final r, trace_of r) = r.
Proof. now destruct r as [[o s] t]. Qed.

(** ** The initialisation phase *)

Lemma init_phase_skip s :
  firstTime s = false -> init_phase s = (Ret tt, s, []).
Proof. intros E. unfold init_phase. now rewrite E. Qed.

Lemma init_phase_fail s :
  firstTime s = true -> answer GpioInitialise (world s) < 0 ->
  init_phase s
  = (Abort init_msg, set_world (after GpioInitialise (world s)) s,
     [Call GpioInitialise (answer GpioInitialise (world s))]).
Proof.
  intros E Hrc. apply Z.ltb_lt in Hrc.
  unfold init_phase. rewrite E. cbn. now rewrite Hrc.
Qed.

Lemma init_phase_first s :
  firstTime s = true -> 0 <= answer GpioInitialise (world s) ->
  init_phase s
  = (Ret tt,
     mkState false (isrDone s) (Some Exitfunc) (plhs0 s)
       (after GpioInitialise (world s)),
     [Call GpioInitialise (answer GpioInitialise (world s)); AtExit Exitfunc]).
Proof.
  intros E Hrc. apply Z.ltb_ge in Hrc.
  unfold init_phase. rewrite E. cbn. now rewrite Hrc.
Qed.

(** The phase returns or aborts; it touches neither [isrDone] nor the
    result slot, and it leaves the backend as [world_after_init] says. *)
Lemma init_phase_cases s :
  (firstTime s = true /\ answer GpioInitialise (world s) < 0
   /\ init_phase s
      = (Abort init_msg, set_world (after GpioInitialise (world s)) s,
         [Call GpioInitialise (answer GpioInitialise (world s))]))
  \/ (exists s1 t0,
        init_phase s = (Ret tt, s1, t0)
        /\ (firstTime s = false
            \/ (firstTime s = true /\ 0 <= answer GpioInitialise (world s)))
        /\ firstTime s1 = false /\ isrDone s1 = isrDone s
        /\ plhs0 s1 = plhs0 s /\ world s1 = world_after_init s).
Proof.
  destruct (firstTime s) eqn:E.
  - destruct (Z.lt_ge_cases (answer GpioInitialise (world s)) 0) as [Hrc|Hrc].
    + left. repeat split; trivial. now apply init_phase_fail.
    + right. eexists _, _. split; [now apply init_phase_first|].
      unfold world_after_init. rewrite E. cbn. intuition.
  - right. exists s, []. split; [now apply init_phase_skip|].
    unfold world_after_init. rewrite E. intuition.
Qed.

Lemma mexFunction_init_abort fuel nlhs prhs s msg s1 t0 :
  init_phase s = (Abort msg, s1, t0) ->
  mexFunction fuel nlhs prhs s = (Abort msg, s1, t0).
Proof. intros E. unfold mexFunction. now apply bind_abort. Qed.

Lemma mexFunction_dispatch fuel nlhs prhs s s1 t0 :
  (2 <= List.length prhs)%nat ->
  init_phase s = (Ret tt, s1, t0) ->
  let d := dispatch fuel (nth 0 prhs 0) (nth 1 prhs 0) (third_arg prhs) s1 in
  mexFunction fuel nlhs prhs s = (outcome_of d, final d, t0 ++ trace_of d).
Proof.
  intros Hn E d. unfold mexFunction. rewrite (bind_ret _ _ _ _ _ _ E).
  replace (Z.of_nat (List.length prhs) =? 0) with false
    by (symmetry; apply Z.eqb_neq; lia).
  replace (Z.of_nat (List.length prhs) <? 2) with false
    by (symmetry; apply Z.ltb_ge; lia).
  reflexivity.
Qed.

(** ** The branches of the switch *)

Lemma case_read_run pin s :
  case_read pin s
  = (Ret tt,
     set_plhs0 (Some (answer (GpioRead pin) (world s)))
       (set_world (after (GpioRead pin) (world s)) s),
     [Call (GpioRead pin) (answer (GpioRead pin) (world s))]).
Proof. reflexivity. Qed.

Lemma case_write_missing pin arg s :
  arg < 0 -> case_write pin arg s = (Abort write_missing_msg, s, []).
Proof.
  intros H. apply Z.ltb_lt in H. unfold case_write, bind, when. now rewrite H.
Qed.

Lemma case_write_run pin arg s :
  0 <= arg ->
  case_write pin arg s
  = (Ret tt, set_world (after (GpioWrite pin arg) (world s)) s,
     [Call (GpioWrite pin arg) (answer (GpioWrite pin arg) (world s))]).
Proof.
  intros H. apply Z.ltb_ge in H. unfold case_write, bind, when. now rewrite H.
Qed.

Lemma case_mode_missing pin arg s :
  arg < 0 -> case_mode pin arg s = (Abort mode_missing_msg, s, []).
Proof.
  intros H. apply Z.ltb_lt in H. unfold case_mode, bind, when. now rewrite H.
Qed.

Lemma case_mode_run pin arg s :
  0 <= arg ->
  let m := if arg =? 0 then PI_INPUT else PI_OUTPUT in
  case_mode pin arg s
  = (Ret tt, set_world (after (GpioSetMode pin m) (world s)) s,
     [Call (GpioSetMode pin m) (answer (GpioSetMode pin m) (world s))]).
Proof.
  intros H. apply Z.ltb_ge in H. unfold case_mode, bind, when. now rewrite H.
Qed.

Lemma case_pull_missing pin arg s :
  arg < -1 -> case_pull pin arg s = (Abort pull_missing_msg, s, []).
Proof.
  intros H. apply Z.ltb_lt in H. unfold case_pull, bind, when. now rewrite H.
Qed.

Lemma case_pull_run pin arg s :
  -1 <= arg ->
  let c := GpioSetPullUpDown pin (pull_of arg) in
  case_pull pin arg s
  = (Ret tt, set_world (after c (world s)) s, [Call c (answer c (world s))]).
Proof.
  intros H. apply Z.ltb_ge in H. unfold case_pull, bind, when. now rewrite H.
Qed.

Lemma fix_pwm_range_run pin s :
  let q := GpioGetPWMrange pin in
  let w1 := after q (world s) in
  fix_pwm_range pin s
  = (Ret tt, set_world (world_at_pwm pin (world s)) s,
     Call q (answer q (world s))
     :: (if answer q (world s) =? 1024 then []
         else [Call (GpioSetPWMrange pin 1024)
                 (answer (GpioSetPWMrange pin 1024) w1)])).
Proof.
  cbn. unfold fix_pwm_range, bind, world_at_pwm. cbn.
  now destruct (answer (GpioGetPWMrange pin) (world s) =? 1024).
Qed.

Lemma case_pwm_missing pin arg s :
  arg < 0 -> case_pwm pin arg s = (Abort pwm_missing_msg, s, []).
Proof.
  intros H. apply Z.ltb_lt in H. unfold case_pwm, bind, when. now rewrite H.
Qed.

Lemma case_pwm_invalid pin arg s :
  1024 < arg -> case_pwm pin arg s = (Abort pwm_invalid_msg, s, []).
Proof.
  intros H. assert (H0 : (arg <? 0) = false) by (apply Z.ltb_ge; lia).
  apply Z.ltb_lt in H. unfold case_pwm, bind, when. rewrite H0. cbn.
  now rewrite H.
Qed.

Lemma case_pwm_run pin arg s :
  0 <= arg <= 1024 ->
  let c := GpioPWM pin arg in
  let w := world_at_pwm pin (world s) in
  case_pwm pin arg s
  = (if answer c w <? 0 then Abort pwm_failed_msg else Ret tt,
     set_world (after c w) s,
     trace_of (fix_pwm_range pin s) ++ [Call c (answer c w)]).
Proof.
  intros [H0 H1]. apply Z.ltb_ge in H0, H1.
  unfold case_pwm, fix_pwm_range, world_at_pwm, bind, when. cbn.
  rewrite H0. cbn. rewrite H1. cbn.
  destruct (answer (GpioGetPWMrange pin) (world s) =? 1024); cbn;
    match goal with
    | |- context [answer (GpioPWM pin arg) ?w <? 0] =>
        now destruct (answer (GpioPWM pin arg) w <? 0)
    end.
Qed.

Lemma dispatch_unknown fuel cmd pin arg s :
  cmd < 0 \/ 5 < cmd ->
  dispatch fuel cmd pin arg s = (Abort unknown_msg, s, []).
Proof.
  intros H. unfold dispatch.
  repeat match goal with
  | |- context [cmd =? ?k] =>
      replace (cmd =? k) with false by (symmetry; apply Z.eqb_neq; lia)
  end.
  reflexivity.
Qed.

Lemma dispatch_cases fuel cmd pin arg :
  dispatch fuel cmd pin arg
  = if cmd =? 0 then case_read pin
    else if cmd =? 1 then case_write pin arg
    else if cmd =? 2 then case_pwm pin arg
    else if cmd =? 3 then case_mode pin arg
    else if cmd =? 4 then case_pull pin arg
    else if cmd =? 5 then case_edge_wait fuel pin arg
    else mexErrMsgTxt unknown_msg.
Proof. reflexivity. Qed.

Lemma dispatch_0 fuel pin arg : dispatch fuel 0 pin arg = case_read pin.
Proof. reflexivity. Qed.
Lemma dispatch_1 fuel pin arg : dispatch fuel 1 pin arg = case_write pin arg.
Proof. reflexivity. Qed.
Lemma dispatch_2 fuel pin arg : dispatch fuel 2 pin arg = case_pwm pin arg.
Proof. reflexivity. Qed.
Lemma dispatch_3 fuel pin arg : dispatch fuel 3 pin arg = case_mode pin arg.
Proof. reflexivity. Qed.
Lemma dispatch_4 fuel pin arg : dispatch fuel 4 pin arg = case_pull pin arg.
Proof. reflexivity. Qed.
Lemma dispatch_5 fuel pin arg :
  dispatch fuel 5 pin arg = case_edge_wait fuel pin arg.
Proof. reflexivity. Qed.

(** A call with at least two arguments, seen from a state in which the
    initialisation phase returns. *)
Lemma mexFunction_cons fuel nlhs cmd pin rest s s1 t0 :
  init_phase s = (Ret tt, s1, t0) ->
  let d := dispatch fuel cmd pin (third_arg (cmd :: pin :: rest)) s1 in
  mexFunction fuel nlhs (cmd :: pin :: rest) s
  = (outcome_of d, final d, t0 ++ trace_of d).
Proof.
  intros E. apply (mexFunction_dispatch fuel nlhs (cmd :: pin :: rest)); trivial.
  cbn. lia.
Qed.

Lemma third_arg_given cmd pin arg rest :
  third_arg (cmd :: pin :: arg :: rest) = arg.
Proof.
  unfold third_arg.
  replace (2 <? Z.of_nat (List.length (cmd :: pin :: arg :: rest))) with true;
    [reflexivity|].
  symmetry. apply Z.ltb_lt. cbn [List.length]. lia.
Qed.

Lemma third_arg_omitted cmd pin : third_arg [cmd; pin] = SENTINEL.
Proof. reflexivity. Qed.

(** Whatever the initialisation phase does, a dispatch that aborts on the
    spot adds nothing to it. *)
Lemma mexFunction_abort_in_dispatch fuel nlhs prhs s msg :
  (2 <= List.length prhs)%nat ->
  (forall s1,
      dispatch fuel (nth 0 prhs 0) (nth 1 prhs 0) (third_arg prhs) s1
      = (Abort msg, s1, [])) ->
  let r := mexFunction fuel nlhs prhs s in
  is_abort (outcome_of r) = true
  /\ trace_of r = trace_of (init_phase s)
  /\ final r = final (init_phase s)
  /\ (firstTime s = false -> r = (Abort msg, s, [])).
Proof.
  intros Hn Hd r. subst r.
  destruct (init_phase_cases s) as [(Hf & Hrc & E)|(s1 & t0 & E & _)].
  - rewrite (mexFunction_init_abort _ _ _ _ _ _ _ E), E. cbn.
    repeat split; trivial. congruence.
  - rewrite (mexFunction_dispatch _ _ _ _ _ _ Hn E), Hd, E. cbn.
    rewrite app_nil_r. repeat split; trivial.
    intros Hf. rewrite (init_phase_skip _ Hf) in E. congruence.
Qed.

(** ** Unknown command codes *)

(** C5: a command code outside 0..5, given with at least two arguments,
    makes the call abort; the trace of the call is the trace of the
    initialisation phase alone, so the dispatch performs no backend call,
    and on an initialised subsystem the call is exactly the abort with the
    unknown-command message and an empty trace. *)
Theorem unknown_command_aborts fuel nlhs prhs s :
  (2 <= List.length prhs)%nat ->
  nth 0 prhs 0 < 0 \/ 5 < nth 0 prhs 0 ->
  let r := mexFunction fuel nlhs prhs s in
  is_abort (outcome_of r) = true
  /\ trace_of r = trace_of (init_phase s)
  /\ final r = final (init_phase s)
  /\ (firstTime s = false -> r = (Abort unknown_msg, s, [])).
Proof.
  intros Hn Hc. apply mexFunction_abort_in_dispatch; trivial.
  intros s1. now apply dispatch_unknown.
Qed.

Lemma init_phase_calls s c :
  In c (calls (trace_of (init_phase s))) -> c = GpioInitialise.
Proof.
  destruct (init_phase_cases s) as [(_ & _ & E)|(s1 & t0 & E & [Hf|[Hf Hrc]] & _)].
  - rewrite E. cbn. intuition.
  - rewrite (init_phase_skip _ Hf). cbn. intuition.
  - rewrite (init_phase_first _ Hf Hrc). cbn. intuition.
Qed.

Lemma mexFunction_same_dispatch fuel nlhs p q s :
  (2 <= List.length p)%nat -> (2 <= List.length q)%nat ->
  (forall s1,
      dispatch fuel (nth 0 p 0) (nth 1 p 0) (third_arg p) s1
      = dispatch fuel (nth 0 q 0) (nth 1 q 0) (third_arg q) s1) ->
  mexFunction fuel nlhs p s = mexFunction fuel nlhs q s.
Proof.
  intros Hp Hq Hd.
  destruct (init_phase_cases s) as [(_ & _ & E)|(s1 & t0 & E & _)].
  - now rewrite !(mexFunction_init_abort _ _ _ _ _ _ _ E).
  - rewrite (mexFunction_dispatch _ _ _ _ _ _ Hp E).
    rewrite (mexFunction_dispatch _ _ _ _ _ _ Hq E). now rewrite Hd.
Qed.

(** ** Negative arguments of commands 1, 2 and 3 *)

Lemma dispatch_negative fuel cmd pin arg s :
  cmd = 1 \/ cmd = 2 \/ cmd = 3 -> arg < 0 ->
  dispatch fuel cmd pin arg s = (Abort (missing_msg cmd), s, []).
Proof.
  intros [-> | [-> | ->]] Ha.
  - now apply case_write_missing.
  - now apply case_pwm_missing.
  - now apply case_mode_missing.
Qed.

(** C9: for commands 1, 2 and 3 a negative third argument that is given
    explicitly cannot be told from an omitted one.  The omitted argument
    is read as -1000, the check is [arg < 0], and the whole run (outcome,
    final state, trace) of the call with the negative argument equals the
    run of the call without it: the missing-argument abort, with no
    backend call made by the dispatch. *)
Theorem negative_argument_reads_as_missing fuel nlhs cmd pin arg rest s :
  cmd = 1 \/ cmd = 2 \/ cmd = 3 -> arg < 0 ->
  let r := mexFunction fuel nlhs (cmd :: pin :: arg :: rest) s in
  third_arg [cmd; pin] = -1000
  /\ r = mexFunction fuel nlhs [cmd; pin] s
  /\ is_abort (outcome_of r) = true
  /\ trace_of r = trace_of (init_phase s)
  /\ (firstTime s = false -> r = (Abort (missing_msg cmd), s, [])).
Proof.
  intros Hc Ha r. subst r. split; [reflexivity|]. split.
  - apply mexFunction_same_dispatch; [cbn; lia | cbn; lia |].
    intros s1. rewrite third_arg_given, third_arg_omitted.
    cbn [nth]. rewrite !dispatch_negative; trivial. unfold SENTINEL. lia.
  - pose proof (mexFunction_abort_in_dispatch fuel nlhs
                  (cmd :: pin :: arg :: rest) s (missing_msg cmd)) as H.
    cbn zeta in H. destruct H as (H1 & H2 & _ & H4).
    + cbn. lia.
    + intros s1. rewrite third_arg_given. cbn [nth].
      now apply dispatch_negative.
    + auto.
Qed.

(** ** PWM duty validation *)



(** ** The pull-resistor command *)



(** ** The revision query *)

Lemma query_revision_run s :
  let rev := answer GpioHardwareRevision (world s) in
  query_revision s
  = (Ret tt,
     set_plhs0 (Some (to_uint32 rev))
       (set_world (after GpioHardwareRevision (world s)) s),
     [Call GpioHardwareRevision rev]).
Proof. reflexivity. Qed.

Lemma to_uint32_range z : 0 <= to_uint32 z < 2 ^ 32.
Proof. unfold to_uint32. apply Z.mod_pos_bound. lia. Qed.

(** C8, amended: a call with no input argument and one expected output
    aborts with the initialisation message when it is a first call and
    [gpioInitialise] fails; in every other case it returns, the result is
    the hardware revision as an unsigned 32-bit number (so non-negative),
    and the trace is the initialisation of a first call, if any, followed
    by the revision query alone. *)
Theorem revision_query fuel s :
  let r := mexFunction fuel 1 [] s in
  let rc := answer GpioInitialise (world s) in
  let rev := answer GpioHardwareRevision (world_after_init s) in
  if firstTime s && (rc <? 0)
  then r = (Abort init_msg, set_world (after GpioInitialise (world s)) s,
            [Call GpioInitialise rc])
  else outcome_of r = Ret tt
       /\ plhs0 (final r) = Some (to_uint32 rev)
       /\ 0 <= to_uint32 rev < 2 ^ 32
       /\ trace_of r
          = (if firstTime s then [Call GpioInitialise rc; AtExit Exitfunc]
             else [])
            ++ [Call GpioHardwareRevision rev].
Proof.
  cbn zeta. unfold world_after_init.
  destruct (firstTime s) eqn:Hf; cbn [andb].
  - destruct (Z.ltb_spec (answer GpioInitialise (world s)) 0) as [Hrc|Hrc].
    + apply mexFunction_init_abort. now apply init_phase_fail.
    + unfold mexFunction.
      rewrite (bind_ret _ _ _ _ _ _ (init_phase_first _ Hf Hrc)).
      cbn [List.length Z.of_nat Z.eqb andb]. rewrite query_revision_run.
      cbn. auto using to_uint32_range.
  - unfold mexFunction.
    rewrite (bind_ret _ _ _ _ _ _ (init_phase_skip _ Hf)).
    cbn [List.length Z.of_nat Z.eqb andb]. rewrite query_revision_run.
    cbn. auto using to_uint32_range.
Qed.

(** ** The PWM range *)

(** C10, amended: for a command 2 that passes the argument checks, once
    the initialisation phase has returned, the dispatch asks for the PWM
    range of the pin, requests range 1024 when the answer differs from
    1024 (the return code of the request is not looked at), and then calls
    [gpioPWM]; the range is 1024 at that call whenever the backend honours
    the request. *)
Theorem pwm_range_before_duty fuel nlhs pin arg rest s s1 t0 :
  init_phase s = (Ret tt, s1, t0) ->
  0 <= arg <= 1024 ->
  let r := mexFunction fuel nlhs (2 :: pin :: arg :: rest) s in
  let q := GpioGetPWMrange pin in
  let set := GpioSetPWMrange pin 1024 in
  let w := world_at_pwm pin (world s1) in
  trace_of r
  = t0
    ++ Call q (answer q (world s1))
       :: (if answer q (world s1) =? 1024 then []
           else [Call set (answer set (after q (world s1)))])
    ++ [Call (GpioPWM pin arg) (answer (GpioPWM pin arg) w)]
  /\ (honours_range pin -> pwm_range pin w = 1024).
Proof.
  intros E Ha. cbn zeta. split.
  - rewrite (mexFunction_cons _ _ _ _ _ _ _ _ E).
    rewrite third_arg_given, dispatch_2, (case_pwm_run _ _ _ Ha).
    cbn [trace_of outcome_of final fst snd]. now rewrite fix_pwm_range_run.
  - intros [Hq Hs]. unfold world_at_pwm.
    destruct (Z.eqb_spec (answer (GpioGetPWMrange pin) (world s1)) 1024) as [Hr|Hr].
    + now rewrite Hq.
    + apply Hs.
Qed.

(** ** The busy-wait *)

Lemma serve_interrupt_run s :
  exists t,
    serve_interrupt s = (Ret tt, final (serve_interrupt s), t)
    /\ forallb is_isr t = true
    /\ firstTime (final (serve_interrupt s)) = firstTime s
    /\ atExit (final (serve_interrupt s)) = atExit s
    /\ plhs0 (final (serve_interrupt s)) = plhs0 s.
Proof.
  unfold serve_interrupt.
  destruct (fst (deliver (world s))) as [[[] [[gpio level] tick]]|]; cbn;
    eexists; repeat split; reflexivity.
Qed.

Lemma read_isrDone_run s :
  let s' := final (serve_interrupt s) in
  read_isrDone s
  = (Ret (isrDone s'), s', trace_of (serve_interrupt s) ++ [Vload (isrDone s')]).
Proof.
  cbn zeta. destruct (serve_interrupt_run s) as (t & E & _).
  unfold read_isrDone, bind.
  destruct (serve_interrupt s) as [[o s'] t']. cbn in E.
  inversion E; subst. reflexivity.
Qed.

Lemma busy_wait_S n s :
  let s' := final (serve_interrupt s) in
  let t := trace_of (serve_interrupt s) ++ [Vload (isrDone s')] in
  busy_wait (S n) s
  = if isrDone s' =? SENTINEL
    then (outcome_of (busy_wait n s'), final (busy_wait n s'),
          t ++ trace_of (busy_wait n s'))
    else (Ret tt, s', t ++ []).
Proof.
  cbn zeta. cbn [busy_wait].
  rewrite (bind_ret _ _ _ _ _ _ (read_isrDone_run s)).
  now destruct (isrDone (final (serve_interrupt s)) =? SENTINEL).
Qed.

Lemma forallb_isr_poll t : forallb is_isr t = true -> forallb is_poll_event t = true.
Proof.
  induction t as [|e t IH]; cbn; trivial.
  destruct e; cbn; try discriminate. exact IH.
Qed.

Lemma loads_app t1 t2 : loads (t1 ++ t2) = loads t1 ++ loads t2.
Proof. apply flat_map_app. Qed.

Lemma calls_app t1 t2 : calls (t1 ++ t2) = calls t1 ++ calls t2.
Proof. apply flat_map_app. Qed.

Lemma loads_isr t : forallb is_isr t = true -> loads t = [].
Proof.
  induction t as [|e t IH]; cbn; trivial.
  destruct e; cbn; try discriminate. exact IH.
Qed.

Lemma calls_poll t : forallb is_poll_event t = true -> calls t = [].
Proof.
  induction t as [|e t IH]; cbn; trivial.
  destruct e; cbn; try discriminate; exact IH.
Qed.

(** The loop only looks and serves; it spins with every look at the
    sentinel, or it returns on the first look that is not. *)
Lemma busy_wait_shape fuel : forall s,
  let r := busy_wait fuel s in
  forallb is_poll_event (trace_of r) = true
  /\ plhs0 (final r) = plhs0 s
  /\ ((outcome_of r = Spin /\ loads (trace_of r) = repeat SENTINEL fuel)
      \/ (exists n,
            outcome_of r = Ret tt /\ (n < fuel)%nat
            /\ isrDone (final r) <> SENTINEL
            /\ loads (trace_of r) = repeat SENTINEL n ++ [isrDone (final r)])).
Proof.
  induction fuel as [|fuel IH]; intros s; cbn zeta.
  - cbn. auto.
  - rewrite busy_wait_S.
    destruct (serve_interrupt_run s) as (t & E & Ht & _ & _ & Hp).
    set (s' := final (serve_interrupt s)) in *.
    assert (Et : trace_of (serve_interrupt s) = t) by now rewrite E.
    rewrite Et.
    destruct (Z.eqb_spec (isrDone s') SENTINEL) as [Hv|Hv];
      cbn [outcome_of final trace_of fst snd].
    + destruct (IH s') as (H1 & H2 & H3). split; [|split].
      * rewrite !forallb_app, H1, (forallb_isr_poll _ Ht). reflexivity.
      * congruence.
      * rewrite !loads_app, (loads_isr _ Ht). cbn [loads flat_map app].
        rewrite Hv.
        destruct H3 as [[Ho Hl]|(n & Ho & Hn & Hd & Hl)].
        -- left. split; trivial. now rewrite Hl.
        -- right. exists (S n). repeat split; trivial; [lia|].
           now rewrite Hl.
    + split; [|split].
      * rewrite !forallb_app, (forallb_isr_poll _ Ht). reflexivity.
      * exact Hp.
      * right. exists 0%nat. repeat split; trivial; [lia|].
        rewrite !loads_app, (loads_isr _ Ht). reflexivity.
Qed.

(** Enough fuel: when the signal has left the sentinel at the look
    number [n + 1], the loop returns with any fuel above [n]. *)
Lemma busy_wait_returns n : forall s fuel,
  isrDone (polled (S n) s) <> SENTINEL -> (n < fuel)%nat ->
  outcome_of (busy_wait fuel s) = Ret tt.
Proof.
  induction n as [|n IH]; intros s fuel Hd Hf;
    (destruct fuel as [|fuel]; [lia|]); rewrite busy_wait_S; cbn zeta;
    destruct (Z.eqb_spec (isrDone (final (serve_interrupt s))) SENTINEL)
      as [Hv|Hv]; trivial.
  - cbn in Hd. contradiction.
  - cbn [outcome_of fst]. apply IH; [exact Hd | lia].
Qed.

(** More fuel does not change a run that has returned. *)
Lemma busy_wait_more_fuel fuel : forall s fuel',
  outcome_of (busy_wait fuel s) = Ret tt -> (fuel <= fuel')%nat ->
  busy_wait fuel' s = busy_wait fuel s.
Proof.
  induction fuel as [|fuel IH]; intros s fuel' Ho Hf; [discriminate|].
  destruct fuel' as [|fuel']; [lia|].
  rewrite !busy_wait_S in *. cbn zeta in *.
  destruct (isrDone (final (serve_interrupt s)) =? SENTINEL); trivial.
  cbn [outcome_of fst] in Ho. rewrite (IH _ fuel' Ho); [reflexivity|lia].
Qed.

(** ** The edge wait *)

Lemma case_edge_wait_missing fuel pin arg s :
  arg < -1 -> case_edge_wait fuel pin arg s = (Abort timeout_missing_msg, s, []).
Proof.
  intros H. apply Z.ltb_lt in H. unfold case_edge_wait, bind, when.
  now rewrite H.
Qed.

Lemma case_edge_wait_run fuel pin arg s :
  -1 <= arg ->
  let reg := GpioSetISRFunc pin EITHER_EDGE arg (Some IsrCallback) in
  let unreg := GpioSetISRFunc pin EITHER_EDGE arg None in
  let w := busy_wait fuel (armed pin arg s) in
  let head := [Vstore SENTINEL; Call reg (answer reg (world s))] in
  case_edge_wait fuel pin arg s
  = match outcome_of w with
    | Ret _ =>
        let s3 := set_world (after unreg (world (final w))) (final w) in
        let s4 := final (serve_interrupt s3) in
        (Ret tt,
         set_plhs0 (Some (if isrDone s4 =? 2 then 0 else 1)) s4,
         head ++ trace_of w
         ++ Call unreg (answer unreg (world (final w)))
            :: trace_of (serve_interrupt s3) ++ [Vload (isrDone s4)])
    | Abort msg => (Abort msg, final w, head ++ trace_of w)
    | Spin => (Spin, final w, head ++ trace_of w)
    end.
Proof.
  intros H. apply Z.ltb_ge in H. cbn zeta.
  unfold case_edge_wait. unfold bind at 1, when at 1. rewrite H.
  cbn -[busy_wait read_isrDone serve_interrupt armed]. unfold armed.
  destruct (answer (GpioSetISRFunc pin EITHER_EDGE arg (Some IsrCallback))
              (world s) =? 0);
    cbn -[busy_wait read_isrDone serve_interrupt]; unfold bind;
    match goal with
    | |- context [busy_wait fuel ?x] =>
        destruct (busy_wait fuel x) as [[[] sw] tw]
    end;
    cbn -[read_isrDone serve_interrupt]; try reflexivity;
    rewrite read_isrDone_run; cbn -[serve_interrupt];
    rewrite ?app_nil_r; reflexivity.
Qed.

Lemma mexFunction_edge_wait fuel nlhs pin arg rest s s1 t0 :
  init_phase s = (Ret tt, s1, t0) ->
  let d := case_edge_wait fuel pin arg s1 in
  mexFunction fuel nlhs (5 :: pin :: arg :: rest) s
  = (outcome_of d, final d, t0 ++ trace_of d).
Proof.
  intros E. rewrite (mexFunction_cons _ _ _ _ _ _ _ _ E).
  now rewrite third_arg_given, dispatch_5.
Qed.

(** C2, amended: for a command 5 whose argument passes the check of line
    173 (it is at least -1), once the initialisation phase has returned,
    the dispatch stores the sentinel in [isrDone], registers [isrCallback]
    on the pin for either edge with the given timeout, stores -1 in the
    result when the registration answered a non-zero code (the fresh
    result holds 0 otherwise), and then only looks at [isrDone] (the
    callback may run in between).  With every look at the sentinel the
    call is still spinning when the fuel is gone, and the result slot
    then holds what was stored before the first look.  On the
    first look that is not the sentinel the loop is left, the callback is
    unregistered, [isrDone] is read once more, and the result is 0 when
    that value is 2 and 1 otherwise.  The call returns with any fuel above
    [n] when the signal has left the sentinel at look [n + 1], and more
    fuel does not change a call that has returned. *)
Theorem edge_wait_steps fuel nlhs pin arg rest s s1 t0 :
  init_phase s = (Ret tt, s1, t0) ->
  -1 <= arg ->
  let r := mexFunction fuel nlhs (5 :: pin :: arg :: rest) s in
  let reg := GpioSetISRFunc pin EITHER_EDGE arg (Some IsrCallback) in
  let unreg := GpioSetISRFunc pin EITHER_EDGE arg None in
  (exists polls tail,
      trace_of r
      = t0 ++ Vstore SENTINEL :: Call reg (answer reg (world s1))
             :: polls ++ tail
      /\ forallb is_poll_event polls = true
      /\ ((outcome_of r = Spin /\ tail = []
           /\ loads polls = repeat SENTINEL fuel
           /\ plhs0 (final r)
              = Some (if answer reg (world s1) =? 0 then 0 else -1))
          \/ (exists n v rc isr v',
                outcome_of r = Ret tt /\ (n < fuel)%nat
                /\ loads polls = repeat SENTINEL n ++ [v] /\ v <> SENTINEL
                /\ tail = Call unreg rc :: isr ++ [Vload v']
                /\ forallb is_isr isr = true
                /\ plhs0 (final r) = Some (if v' =? 2 then 0 else 1))))
  /\ (forall n,
        isrDone (polled (S n) (armed pin arg s1)) <> SENTINEL ->
        (n < fuel)%nat -> outcome_of r = Ret tt)
  /\ (forall fuel',
        outcome_of r = Ret tt -> (fuel <= fuel')%nat ->
        mexFunction fuel' nlhs (5 :: pin :: arg :: rest) s = r).
Proof.
  intros E Ha. cbn zeta.
  rewrite (mexFunction_edge_wait _ _ _ _ _ _ _ _ E).
  rewrite (case_edge_wait_run _ _ _ _ Ha). cbn zeta.
  pose proof (busy_wait_shape fuel (armed pin arg s1)) as Hw. cbn zeta in Hw.
  destruct Hw as (Hp & Hslot & Hw).
  assert (Harmed : plhs0 (armed pin arg s1)
                   = Some (if answer (GpioSetISRFunc pin EITHER_EDGE arg
                                        (Some IsrCallback)) (world s1) =? 0
                           then 0 else -1)).
  { unfold armed.
    now destruct (answer (GpioSetISRFunc pin EITHER_EDGE arg (Some IsrCallback))
                    (world s1) =? 0). }
  split; [|split].
  - exists (trace_of (busy_wait fuel (armed pin arg s1))).
    destruct Hw as [[Ho Hl]|(n & Ho & Hn & Hd & Hl)]; rewrite Ho;
      cbn [outcome_of final trace_of fst snd app].
    + exists []. rewrite app_nil_r. split; [reflexivity|]. split; trivial.
      left. repeat split; trivial. now rewrite Hslot.
    + match goal with
      | |- context [serve_interrupt ?x] =>
          destruct (serve_interrupt_run x) as (ti & Ei & Hi & _)
      end.
      eexists. split; [reflexivity|]. split; trivial. right.
      exists n. eexists _, _, _, _. repeat split; try eassumption; try reflexivity.
      rewrite Ei. cbn. exact Hi.
  - intros n Hd Hn.
    rewrite (busy_wait_returns n _ fuel Hd Hn). reflexivity.
  - intros fuel' Ho Hf.
    rewrite (mexFunction_edge_wait _ _ _ _ _ _ _ _ E).
    rewrite (case_edge_wait_run _ _ _ _ Ha). cbn zeta.
    destruct (outcome_of (busy_wait fuel (armed pin arg s1))) eqn:Hb;
      try discriminate Ho.
    destruct a. now rewrite (busy_wait_more_fuel _ _ _ Hb Hf), Hb.
Qed.

(** The result slot of a command 5 that returns holds 0 or 1, whatever
    the registration answered. *)
Lemma edge_wait_result fuel nlhs pin arg rest s :
  let r := mexFunction fuel nlhs (5 :: pin :: arg :: rest) s in
  match outcome_of r with
  | Ret _ => plhs0 (final r) = Some 0 \/ plhs0 (final r) = Some 1
  | _ => True
  end.
Proof.
  cbn zeta.
  destruct (init_phase_cases s) as [(_ & _ & E)|(s1 & t0 & E & _)].
  - now rewrite (mexFunction_init_abort _ _ _ _ _ _ _ E).
  - rewrite (mexFunction_edge_wait _ _ _ _ _ _ _ _ E).
    destruct (Z.lt_ge_cases arg (-1)) as [Ha|Ha].
    + now rewrite (case_edge_wait_missing _ _ _ _ Ha).
    + rewrite (case_edge_wait_run _ _ _ _ Ha). cbn zeta.
      destruct (outcome_of (busy_wait fuel (armed pin arg s1))); cbn; trivial.
      match goal with |- context [if ?b then 0 else 1] => destruct b end; auto.
Qed.

(** ** When a call aborts *)

Lemma busy_wait_no_abort fuel s : is_abort (outcome_of (busy_wait fuel s)) = false.
Proof.
  destruct (busy_wait_shape fuel s) as (_ & _ & [[Ho _]|(n & Ho & _)]);
    now rewrite Ho.
Qed.

Lemma case_edge_wait_aborts fuel pin arg s :
  is_abort (outcome_of (case_edge_wait fuel pin arg s)) = (arg <? -1).
Proof.
  destruct (Z.ltb_spec arg (-1)) as [Ha|Ha].
  - now rewrite case_edge_wait_missing.
  - rewrite case_edge_wait_run by trivial. cbn zeta.
    pose proof (busy_wait_no_abort fuel (armed pin arg s)) as Hb.
    now destruct (outcome_of (busy_wait fuel (armed pin arg s))).
Qed.

Lemma dispatch_aborts fuel cmd pin arg s :
  is_abort (outcome_of (dispatch fuel cmd pin arg s))
  = (((cmd =? 1) && (arg <? 0))
     || ((cmd =? 2)
         && ((arg <? 0) || (1024 <? arg)
             || (answer (GpioPWM pin arg) (world_at_pwm pin (world s)) <? 0)))
     || ((cmd =? 3) && (arg <? 0))
     || ((cmd =? 4) && (arg <? -1))
     || ((cmd =? 5) && (arg <? -1))
     || negb (known_command cmd)).
Proof.
  destruct (Z.eqb_spec cmd 0) as [->|H0]; [reflexivity|].
  destruct (Z.eqb_spec cmd 1) as [->|H1].
  { rewrite dispatch_1. cbn. destruct (Z.ltb_spec arg 0).
    - now rewrite case_write_missing.
    - now rewrite case_write_run. }
  destruct (Z.eqb_spec cmd 2) as [->|H2].
  { rewrite dispatch_2. cbn. destruct (Z.ltb_spec arg 0).
    - now rewrite case_pwm_missing.
    - destruct (Z.ltb_spec 1024 arg).
      + now rewrite case_pwm_invalid.
      + rewrite case_pwm_run by lia. cbn.
        destruct (answer (GpioPWM pin arg) (world_at_pwm pin (world s)) <? 0);
          reflexivity. }
  destruct (Z.eqb_spec cmd 3) as [->|H3].
  { rewrite dispatch_3. cbn. destruct (Z.ltb_spec arg 0).
    - now rewrite case_mode_missing.
    - now rewrite case_mode_run. }
  destruct (Z.eqb_spec cmd 4) as [->|H4].
  { rewrite dispatch_4. cbn. destruct (Z.ltb_spec arg (-1)).
    - now rewrite case_pull_missing.
    - now rewrite case_pull_run. }
  destruct (Z.eqb_spec cmd 5) as [->|H5].
  { rewrite dispatch_5, case_edge_wait_aborts. cbn.
    now rewrite orb_false_r. }
  rewrite dispatch_unknown by lia. cbn.
  unfold known_command.
  destruct (Z.leb_spec 0 cmd), (Z.leb_spec cmd 5); trivial. exfalso. lia.
Qed.

(** C4, amended: a call aborts exactly when [aborts_when] says so: a
    first call whose [gpioInitialise] fails; or, with at least two
    arguments, a command 1, 2 or 3 whose third argument is omitted or
    negative, a command 4 or 5 whose third argument is omitted or below
    -1, a command 2 whose duty exceeds 1024 or whose [gpioPWM] call
    answers a negative code, or a command code outside 0..5.  Of the other
    return codes, that of [gpioRead] is handed to the caller as the result,
    and those of [gpioWrite], [gpioSetMode] and [gpioSetPullUpDown] are
    dropped: the call returns and leaves the result slot alone whatever
    the backend answered. *)
Theorem abort_conditions fuel nlhs prhs s :
  let r := mexFunction fuel nlhs prhs s in
  is_abort (outcome_of r) = aborts_when prhs s
  /\ (forall pin rest s1 t0,
        prhs = 0 :: pin :: rest -> init_phase s = (Ret tt, s1, t0) ->
        let rc := answer (GpioRead pin) (world s1) in
        outcome_of r = Ret tt /\ plhs0 (final r) = Some rc
        /\ trace_of r = t0 ++ [Call (GpioRead pin) rc])
  /\ (forall cmd pin arg rest s1 t0,
        prhs = cmd :: pin :: arg :: rest -> init_phase s = (Ret tt, s1, t0) ->
        (cmd = 1 /\ 0 <= arg) \/ (cmd = 3 /\ 0 <= arg)
        \/ (cmd = 4 /\ -1 <= arg) ->
        outcome_of r = Ret tt /\ plhs0 (final r) = plhs0 s
        /\ exists c rc, trace_of r = t0 ++ [Call c rc]).
Proof.
  cbn zeta. split; [|split].
  - unfold aborts_when.
    destruct (init_phase_cases s)
      as [(Hf & Hrc & E)|(s1 & t0 & E & Hi & _ & _ & _ & Hw)].
    + rewrite (mexFunction_init_abort _ _ _ _ _ _ _ E), Hf.
      apply Z.ltb_lt in Hrc. now rewrite Hrc.
    + replace (firstTime s && (answer GpioInitialise (world s) <? 0))
        with false
        by (destruct Hi as [->|[-> Hrc]]; [reflexivity|];
            apply Z.ltb_ge in Hrc; now rewrite Hrc).
      cbn [orb].
      destruct (Z.leb_spec 2 (Z.of_nat (List.length prhs))) as [Hn|Hn].
      * assert (Hl : (2 <= List.length prhs)%nat) by lia.
        rewrite (mexFunction_dispatch _ _ _ _ _ _ Hl E).
        cbn [outcome_of fst andb]. rewrite dispatch_aborts. now rewrite Hw.
      * unfold mexFunction. rewrite (bind_ret _ _ _ _ _ _ E).
        replace (Z.of_nat (List.length prhs) <? 2) with true
          by (symmetry; apply Z.ltb_lt; lia).
        now destruct ((Z.of_nat (List.length prhs) =? 0) && (nlhs =? 1)).
  - intros pin rest s1 t0 -> E. cbn zeta.
    rewrite (mexFunction_cons _ _ _ _ _ _ _ _ E), dispatch_0, case_read_run.
    cbn. auto.
  - intros cmd pin arg rest s1 t0 -> E Hc.
    assert (Hp : plhs0 s1 = plhs0 s).
    { destruct (init_phase_cases s)
        as [(_ & _ & E')|(s1' & t0' & E' & _ & _ & _ & Hp & _)];
        rewrite E in E'; [discriminate|]. now inversion E'; subst. }
    rewrite (mexFunction_cons _ _ _ _ _ _ _ _ E), third_arg_given.
    destruct Hc as [[-> Ha]|[[-> Ha]|[-> Ha]]].
    + rewrite dispatch_1, case_write_run by trivial. cbn. eauto.
    + rewrite dispatch_3, case_mode_run by trivial. cbn. eauto.
    + rewrite dispatch_4, case_pull_run by trivial. cbn. eauto.
Qed.

(** ** The life cycle *)

Lemma keeps_ret {A} (a : A) : keeps_setup (W:=W) (ret a).
Proof. intros s. cbn. auto. Qed.

Lemma keeps_abort {A} msg : keeps_setup (W:=W) (mexErrMsgTxt (A:=A) msg).
Proof. intros s. cbn. auto. Qed.

Lemma keeps_bind {A B} (m : M A) (f : A -> M B) :
  keeps_setup (W:=W) m -> (forall a, keeps_setup (W:=W) (f a)) -> keeps_setup (W:=W) (bind m f).
Proof.
  intros Hm Hf s. unfold bind. specialize (Hm s).
  destruct (m s) as [[[a| |] s1] t1]; cbn in *; trivial.
  destruct (Hf a s1) as (H1 & H2 & H3). destruct Hm as (G1 & G2 & G3).
  repeat split; try congruence.
  rewrite calls_app, in_app_iff. tauto.
Qed.

Lemma keeps_when b (m : M unit) : keeps_setup (W:=W) m -> keeps_setup (W:=W) (when b m).
Proof. destruct b; cbn; auto using keeps_ret. Qed.

Lemma keeps_if {A} (b : bool) (m1 m2 : M A) :
  keeps_setup (W:=W) m1 -> keeps_setup (W:=W) m2 -> keeps_setup (W:=W) (if b then m1 else m2).
Proof. now destruct b. Qed.

Lemma keeps_pigpio c : c <> GpioInitialise -> keeps_setup (W:=W) (pigpio c).
Proof. intros Hc s. cbn. intuition congruence. Qed.

Lemma keeps_mxCreateDoubleMatrix : keeps_setup (W:=W) mxCreateDoubleMatrix.
Proof. intros s. cbn. auto. Qed.

Lemma keeps_write_plhs0 v : keeps_setup (W:=W) (write_plhs0 v).
Proof. intros s. cbn. auto. Qed.

Lemma keeps_write_isrDone v : keeps_setup (W:=W) (write_isrDone v).
Proof. intros s. cbn. auto. Qed.

Lemma keeps_print_usage : keeps_setup (W:=W) print_usage.
Proof. intros s. cbn. auto. Qed.

Lemma keeps_read_isrDone : keeps_setup (W:=W) read_isrDone.
Proof.
  intros s. rewrite read_isrDone_run.
  destruct (serve_interrupt_run s) as (t & E & Ht & H1 & H2 & _).
  cbn [final trace_of fst snd]. repeat split; trivial.
  rewrite E. cbn [trace_of snd]. rewrite calls_app.
  rewrite (calls_poll _ (forallb_isr_poll _ Ht)). cbn. auto.
Qed.

Lemma keeps_busy_wait fuel : keeps_setup (W:=W) (busy_wait fuel).
Proof.
  induction fuel as [|fuel IH]; [intros s; cbn; auto|].
  cbn [busy_wait]. apply keeps_bind; [apply keeps_read_isrDone|].
  intros v. apply keeps_if; [exact IH | apply keeps_ret].
Qed.

Create HintDb keeps.

#[local] Hint Resolve keeps_ret keeps_abort keeps_when keeps_if keeps_bind
  keeps_mxCreateDoubleMatrix keeps_write_plhs0 keeps_write_isrDone
  keeps_print_usage keeps_read_isrDone keeps_busy_wait : keeps.

Ltac keeps_call := apply keeps_pigpio; discriminate.

Lemma keeps_dispatch fuel cmd pin arg : keeps_setup (W:=W) (dispatch fuel cmd pin arg).
Proof.
  unfold dispatch, case_read, case_write, case_pwm, fix_pwm_range, case_mode,
    case_pull, case_edge_wait, gpioRead, gpioWrite, gpioGetPWMrange,
    gpioSetPWMrange, gpioPWM, gpioSetMode, gpioSetPullUpDown, gpioSetISRFunc.
  repeat first
    [ keeps_call
    | solve [auto with keeps]
    | apply keeps_if
    | apply keeps_bind; [|intros ?]
    | apply keeps_when ].
Qed.

Lemma keeps_after_init fuel nlhs prhs :
  keeps_setup (W:=W)
    (if (Z.of_nat (List.length prhs) =? 0) && (nlhs =? 1) then query_revision
     else if Z.of_nat (List.length prhs) <? 2 then print_usage
          else dispatch fuel (nth 0 prhs 0) (nth 1 prhs 0) (third_arg prhs)).
Proof.
  apply keeps_if; [|apply keeps_if; auto using keeps_dispatch with keeps].
  unfold query_revision, gpioHardwareRevision.
  apply keeps_bind; [keeps_call|]. auto with keeps.
Qed.

Lemma no_init_no_good_init t :
  ~ In GpioInitialise (calls t) -> good_inits t = 0%nat.
Proof.
  unfold good_inits. induction t as [|e t IH]; cbn; trivial.
  destruct e as [[] rc| | | | |]; cbn; intros H;
    try (apply IH; tauto). tauto.
Qed.

Lemma good_inits_app t1 t2 :
  good_inits (t1 ++ t2) = (good_inits t1 + good_inits t2)%nat.
Proof. unfold good_inits. now rewrite filter_app, length_app. Qed.

(** One call: the subsystem is brought up exactly when the call is a
    first one and [gpioInitialise] succeeds, and [firstTime] stays set
    only on a first call whose [gpioInitialise] fails. *)
Lemma mexFunction_setup fuel nlhs prhs s :
  let r := mexFunction fuel nlhs prhs s in
  let rc := answer GpioInitialise (world s) in
  good_inits (trace_of r) = (if firstTime s && (0 <=? rc) then 1%nat else 0%nat)
  /\ firstTime (final r) = firstTime s && (rc <? 0)
  /\ (firstTime s = false ->
      atExit (final r) = atExit s /\ ~ In GpioInitialise (calls (trace_of r)))
  /\ (firstTime s = true -> 0 <= rc -> atExit (final r) = Some Exitfunc)
  /\ (firstTime s = true -> rc < 0 -> is_abort (outcome_of r) = true).
Proof.
  cbn zeta. unfold mexFunction.
  pose proof (keeps_after_init fuel nlhs prhs) as Hk.
  set (k := if (Z.of_nat (List.length prhs) =? 0) && (nlhs =? 1)
            then query_revision else _) in *.
  destruct (firstTime s) eqn:Hf.
  - destruct (Z.lt_ge_cases (answer GpioInitialise (world s)) 0) as [Hrc|Hrc].
    + rewrite (bind_abort _ _ _ _ _ _ (init_phase_fail _ Hf Hrc)).
      cbn. rewrite Hf.
      replace (0 <=? answer GpioInitialise (world s)) with false
        by (symmetry; apply Z.leb_gt; lia).
      replace (answer GpioInitialise (world s) <? 0) with true
        by (symmetry; apply Z.ltb_lt; lia).
      unfold good_inits. cbn.
      replace (0 <=? answer GpioInitialise (world s)) with false
        by (symmetry; apply Z.leb_gt; lia).
      repeat split; trivial; try discriminate. intros; lia.
    + rewrite (bind_ret _ _ _ _ _ _ (init_phase_first _ Hf Hrc)).
      cbn [outcome_of final trace_of fst snd].
      match goal with
      | |- context [k ?x] => destruct (Hk x) as (H1 & H2 & H3)
      end.
      rewrite good_inits_app, (no_init_no_good_init _ H3), H1, H2.
      replace (0 <=? answer GpioInitialise (world s)) with true
        by (symmetry; apply Z.leb_le; lia).
      replace (answer GpioInitialise (world s) <? 0) with false
        by (symmetry; apply Z.ltb_ge; lia).
      unfold good_inits. cbn.
      replace (0 <=? answer GpioInitialise (world s)) with true
        by (symmetry; apply Z.leb_le; lia).
      repeat split; trivial; try discriminate. intros; lia.
  - rewrite (bind_ret _ _ _ _ _ _ (init_phase_skip _ Hf)).
    cbn [outcome_of final trace_of fst snd app andb].
    destruct (Hk s) as (H1 & H2 & H3).
    rewrite (no_init_no_good_init _ H3), H1, Hf.
    repeat split; trivial; discriminate.
Qed.

Lemma exitfunc_run s :
  exitfunc s
  = (Ret tt, set_firstTime true (set_world (after GpioTerminate (world s)) s),
     [Call GpioTerminate (answer GpioTerminate (world s))]).
Proof. reflexivity. Qed.

(** Calls alone, with no flush in between, bring the subsystem up at most
    once, and not at all when it is up already. *)
Lemma session_inits acts : forall s,
  forallb is_invoke acts = true ->
  (good_inits (snd (session acts s)) <= 1)%nat
  /\ (firstTime s = false -> good_inits (snd (session acts s)) = 0%nat).
Proof.
  induction acts as [|[fuel nlhs prhs|] acts IH]; intros s Ha;
    [cbn; auto | | discriminate].
  cbn [forallb is_invoke andb] in Ha. cbn [session].
  pose proof (mexFunction_setup fuel nlhs prhs (set_plhs0 None s)) as Hs.
  cbn zeta in Hs. cbn [set_plhs0 firstTime world] in Hs.
  destruct Hs as (Hg & Hf & _).
  set (r := mexFunction fuel nlhs prhs (set_plhs0 None s)) in *.
  destruct (IH (final r) Ha) as (I1 & I2).
  assert (Hcall : (good_inits (trace_of r) <= 1)%nat
                  /\ (firstTime s = false -> good_inits (trace_of r) = 0%nat)
                  /\ (good_inits (trace_of r) = 1%nat ->
                      firstTime (final r) = false)
                  /\ (firstTime s = false -> firstTime (final r) = false)).
  { rewrite Hg, Hf. destruct (firstTime s); cbn [andb].
    - destruct (Z.leb_spec 0 (answer GpioInitialise (world s)));
        destruct (Z.ltb_spec (answer GpioInitialise (world s)) 0);
        repeat split; auto; try lia; discriminate.
    - repeat split; auto. }
  destruct Hcall as (C1 & C2 & C3 & C4).
  assert (Hsum : (good_inits (trace_of r ++ snd (session acts (final r))) <= 1)%nat
                 /\ (firstTime s = false ->
                     good_inits (trace_of r ++ snd (session acts (final r)))
                     = 0%nat)).
  { rewrite good_inits_app. split.
    - destruct (good_inits (trace_of r)) as [|[|k]] eqn:Hk; [lia| |lia].
      rewrite (I2 (C3 eq_refl)). lia.
    - intros Hft. rewrite (C2 Hft), (I2 (C4 Hft)). reflexivity. }
  destruct (outcome_of r); cbn [snd]; auto.
Qed.

(** C6, amended: the subsystem is initialised at most once between two
    teardowns (not: once per process).  A first call whose
    [gpioInitialise] succeeds sets the flag and registers the exit hook;
    a first call whose [gpioInitialise] fails aborts and leaves the flag
    unset, so that the next call tries again; a call that finds the flag
    set does not call [gpioInitialise] and keeps the flag; the registered
    hook, run when the file is flushed, calls [gpioTerminate] and resets
    the flag; and any sequence of calls with no flush in between brings
    the subsystem up at most once. *)
Theorem initialised_once_between_teardowns fuel nlhs prhs acts s :
  let r := mexFunction fuel nlhs prhs s in
  let rc := answer GpioInitialise (world s) in
  (initialized s = false -> 0 <= rc ->
     initialized (final r) = true /\ atExit (final r) = Some Exitfunc
     /\ good_inits (trace_of r) = 1%nat)
  /\ (initialized s = false -> rc < 0 ->
      initialized (final r) = false /\ is_abort (outcome_of r) = true)
  /\ (initialized s = true ->
      initialized (final r) = true
      /\ ~ In GpioInitialise (calls (trace_of r)))
  /\ (atExit s = Some Exitfunc ->
      initialized (final (mex_flush s)) = false
      /\ trace_of (mex_flush s)
         = [Call GpioTerminate (answer GpioTerminate (world s))])
  /\ (forallb is_invoke acts = true ->
      (good_inits (snd (session acts s)) <= 1)%nat).
Proof.
  cbn zeta. unfold initialized.
  destruct (mexFunction_setup fuel nlhs prhs s) as (Hg & Hf & H0 & H1 & H2).
  split; [|split; [|split; [|split]]].
  - intros Hi Hrc. apply negb_false_iff in Hi.
    rewrite Hg, Hf, Hi. cbn [andb].
    replace (answer GpioInitialise (world s) <? 0) with false
      by (symmetry; apply Z.ltb_ge; exact Hrc).
    replace (0 <=? answer GpioInitialise (world s)) with true
      by (symmetry; apply Z.leb_le; exact Hrc).
    auto.
  - intros Hi Hrc. apply negb_false_iff in Hi.
    rewrite Hf, Hi. cbn [andb].
    replace (answer GpioInitialise (world s) <? 0) with true
      by (symmetry; apply Z.ltb_lt; exact Hrc).
    auto.
  - intros Hi. apply negb_true_iff in Hi. rewrite Hf, Hi.
    split; [reflexivity | now apply H0].
  - intros Hx. unfold mex_flush. rewrite Hx. split; reflexivity.
  - intros Ha. now apply session_inits.
Qed.

End Dispatcher.

(** * Runs on the reference backend *)

Section Board.

Import Sim.

Lemma sim_honours_range pin : is_user_gpio pin = true -> honours_range pin.
Proof.
  intros Hp. split; intros w; unfold pwm_range, answer, after; cbn;
    rewrite Hp; cbn; [reflexivity|].
  unfold lookup. cbn. now rewrite Z.eqb_refl.
Qed.

(** With no callback registered nothing ever changes [isrDone]: the loop
    reads the sentinel for as long as it is given fuel. *)
Lemma busy_wait_unregistered fuel : forall s,
  handler (world s) = None -> isrDone s = SENTINEL ->
  busy_wait fuel s = (Spin, s, repeat (Vload SENTINEL) fuel).
Proof.
  induction fuel as [|fuel IH]; intros s Hh Hd; [reflexivity|].
  rewrite busy_wait_S. cbn zeta.
  assert (E : serve_interrupt s = (Ret tt, s, [])).
  { unfold serve_interrupt. cbn. unfold sim_deliver. rewrite Hh.
    now destruct s. }
  rewrite E. cbn [final trace_of fst snd app]. rewrite Hd, Z.eqb_refl.
  rewrite (IH s Hh Hd). reflexivity.
Qed.

End Board.

(** C1: on an initialised board whose [gpioSetISRFunc] rejects the pin
    (pin 99, timeout 100), the call stores -1 in the result and then never
    returns: for every amount of fuel it is still reading the sentinel.
    And on every backend, a command 5 that does return hands back 0 or 1,
    so -1 is never the result of a call. *)
Theorem edge_wait_setup_failure :
  (forall fuel pend,
      mexFunction fuel 1 [5; 99; 100] (Sim.ready (Sim.board pend))
      = (Spin,
         mkState false SENTINEL (Some Exitfunc) (Some (-1)) (Sim.board pend),
         Vstore SENTINEL :: Call (Sim.register 99 100) Sim.PI_BAD_GPIO
         :: repeat (Vload SENTINEL) fuel))
  /\ (forall W (BW : Backend W) fuel nlhs pin arg rest (s : state W),
        match outcome_of (mexFunction fuel nlhs (5 :: pin :: arg :: rest) s) with
        | Ret _ =>
            plhs0 (final (mexFunction fuel nlhs (5 :: pin :: arg :: rest) s))
            = Some 0
            \/ plhs0 (final (mexFunction fuel nlhs (5 :: pin :: arg :: rest) s))
               = Some 1
        | _ => True
        end).
Proof.
  split.
  - intros fuel pend.
    rewrite (mexFunction_edge_wait fuel 1 99 100 [] _ _ []
               (init_phase_skip (Sim.ready (Sim.board pend)) eq_refl)).
    rewrite case_edge_wait_run by lia. cbn zeta.
    rewrite busy_wait_unregistered by reflexivity. reflexivity.
  - intros W BW fuel nlhs pin arg rest s.
    apply (edge_wait_result fuel nlhs pin arg rest s).
Qed.

(** ** Concrete runs *)

(** An edge at the third look: two reads of the sentinel, the callback,
    the read that leaves the loop, the unregistration, the final read;
    the result is 1. *)
Example edge_wait_edge_run :
  mexFunction 5 1 [5; 17; 100] Sim.edge_at_third_look
  = (Ret tt,
     mkState false 1 (Some Exitfunc) (Some 1) (Sim.board []),
     [Vstore SENTINEL; Call (Sim.register 17 100) 0;
      Vload SENTINEL; Vload SENTINEL; Isr IsrCallback 17 1 0; Vload 1;
      Call (GpioSetISRFunc 17 EITHER_EDGE 100 None) 0; Vload 1]).
Proof. reflexivity. Qed.

(** A timeout (level 2) at the first look: the result is 0. *)
Example edge_wait_timeout_run :
  mexFunction 5 1 [5; 17; 100] (Sim.ready (Sim.board [Some Sim.PI_TIMEOUT]))
  = (Ret tt,
     mkState false 2 (Some Exitfunc) (Some 0) (Sim.board []),
     [Vstore SENTINEL; Call (Sim.register 17 100) 0;
      Isr IsrCallback 17 2 0; Vload 2;
      Call (GpioSetISRFunc 17 EITHER_EDGE 100 None) 0; Vload 2]).
Proof. reflexivity. Qed.

(** C2 as stated fails: a command 5 without the timeout argument aborts
    before any step of the edge wait; [isrDone] is not reset and no
    callback is registered. *)
Lemma edge_wait_without_timeout_aborts :
  mexFunction 10 1 [5; 17] Sim.edge_at_third_look
  = (Abort timeout_missing_msg, Sim.edge_at_third_look, []).
Proof. reflexivity. Qed.

(** C4 as stated fails: command 1 with the level -1 given explicitly
    aborts, and none of the five listed reasons holds.  And the return
    code of a write that the backend refuses (pin 99) does not reach the
    caller: the call returns normally with an empty result slot. *)
Lemma negative_level_aborts_unlisted :
  mexFunction 0 0 [1; 17; -1] Sim.idle = (Abort write_missing_msg, Sim.idle, [])
  /\ listed_abort_reason [1; 17; -1] Sim.idle = false
  /\ mexFunction 0 1 [1; 99; 1] Sim.idle
     = (Ret tt, Sim.idle, [Call (GpioWrite 99 1) Sim.PI_BAD_GPIO]).
Proof. repeat split. Qed.

(** C6 as stated fails: call, flush, call within one session initialises
    the subsystem twice. *)
Lemma reinitialised_after_flush :
  good_inits
    (snd (session [Invoke 0 1 []; Flush; Invoke 0 1 []]
            (initial_state (Sim.board []))))
  = 2%nat.
Proof. reflexivity. Qed.

(** C8 as stated fails: where [gpioInitialise] fails, the first revision
    query aborts and returns nothing; and a first query that succeeds has
    called [gpioInitialise] before the revision query. *)
Lemma revision_query_first_call :
  mexFunction 0 1 [] (initial_state Sim.no_root)
  = (Abort init_msg, initial_state Sim.no_root, [Call GpioInitialise (-1)])
  /\ ~ returns_revision (mexFunction 0 1 [] (initial_state Sim.no_root))
  /\ calls (trace_of (mexFunction 0 1 [] (initial_state (Sim.board []))))
     = [GpioInitialise; GpioHardwareRevision].
Proof.
  split; [reflexivity|]. split; [|reflexivity].
  intros (v & _ & Ho & _). discriminate Ho.
Qed.

(** C10 as stated fails: on pin 40, which has no PWM, a duty of 512 passes
    the argument checks and [gpioPWM] is called, but the range request was
    refused and the range the backend reports at that moment is not
    1024. *)
Lemma pwm_range_not_forced :
  trace_of (mexFunction 0 0 [2; 40; 512] Sim.idle)
  = [Call (GpioGetPWMrange 40) Sim.PI_BAD_USER_GPIO;
     Call (GpioSetPWMrange 40 1024) Sim.PI_BAD_USER_GPIO;
     Call (GpioPWM 40 512) Sim.PI_BAD_USER_GPIO]
  /\ pwm_range 40 (world_at_pwm 40 (world Sim.idle)) <> 1024.
Proof. split; [reflexivity|]. cbn. discriminate. Qed.

(** ** The theorems at concrete inputs *)

Lemma unknown_command_aborts_witness :
  (2 <= List.length [99; 17])%nat
  /\ (nth 0 [99; 17] 0 < 0 \/ 5 < nth 0 [99; 17] 0)
  /\ mexFunction 0 0 [99; 17] Sim.idle = (Abort unknown_msg, Sim.idle, []).
Proof.
  assert (H1 : (2 <= List.length [99; 17])%nat) by (simpl; lia).
  assert (H2 : nth 0 [99; 17] 0 < 0 \/ 5 < nth 0 [99; 17] 0)
    by (right; simpl; lia).
  split; [exact H1|]. split; [exact H2|].
  apply (unknown_command_aborts 0 0 [99; 17] Sim.idle H1 H2). reflexivity.
Defined.

Lemma negative_argument_reads_as_missing_witness :
  (1 = 1 \/ 1 = 2 \/ 1 = 3) /\ -1 < 0
  /\ mexFunction 0 0 [1; 17; -1] Sim.idle = mexFunction 0 0 [1; 17] Sim.idle
  /\ mexFunction 0 0 [1; 17; -1] Sim.idle
     = (Abort write_missing_msg, Sim.idle, []).
Proof.
  assert (H1 : 1 = 1 \/ 1 = 2 \/ 1 = 3) by (left; reflexivity).
  assert (H2 : -1 < 0) by lia.
  split; [exact H1|]. split; [exact H2|].
  destruct (negative_argument_reads_as_missing 0 0 1 17 (-1) [] Sim.idle H1 H2)
    as (_ & Heq & _ & _ & Hrun).
  split; [exact Heq | apply Hrun; reflexivity].
Defined.



Lemma pwm_range_before_duty_witness :
  init_phase Sim.idle = (Ret tt, Sim.idle, [])
  /\ 0 <= 512 <= 1024
  /\ trace_of (mexFunction 0 0 [2; 18; 512] Sim.idle)
     = [Call (GpioGetPWMrange 18) 255; Call (GpioSetPWMrange 18 1024) 1024;
        Call (GpioPWM 18 512) 0]
  /\ pwm_range 18 (world_at_pwm 18 (world Sim.idle)) = 1024.
Proof.
  assert (H1 : init_phase Sim.idle = (Ret tt, Sim.idle, [])) by reflexivity.
  assert (H2 : 0 <= 512 <= 1024) by lia.
  split; [exact H1|]. split; [exact H2|].
  destruct (pwm_range_before_duty 0 0 18 512 [] _ _ _ H1 H2) as (Ht & Hr).
  split; [exact Ht|]. apply Hr. apply sim_honours_range. reflexivity.
Defined.

Lemma edge_wait_steps_witness :
  init_phase Sim.edge_at_third_look = (Ret tt, Sim.edge_at_third_look, [])
  /\ -1 <= 100
  /\ isrDone (polled 3 (armed 17 100 Sim.edge_at_third_look)) <> SENTINEL
  /\ outcome_of (mexFunction 5 1 [5; 17; 100] Sim.edge_at_third_look) = Ret tt
  /\ mexFunction 9 1 [5; 17; 100] Sim.edge_at_third_look
     = mexFunction 5 1 [5; 17; 100] Sim.edge_at_third_look
  /\ init_phase Sim.idle = (Ret tt, Sim.idle, [])
  /\ plhs0 (final (mexFunction 3 1 [5; 99; 100] Sim.idle)) = Some (-1)
  /\ plhs0 (final (mexFunction 3 1 [5; 17; 100] Sim.idle)) = Some 0.
Proof.
  assert (H1 : init_phase Sim.edge_at_third_look
               = (Ret tt, Sim.edge_at_third_look, [])) by reflexivity.
  assert (H2 : -1 <= 100) by lia.
  assert (H3 : isrDone (polled 3 (armed 17 100 Sim.edge_at_third_look))
               <> SENTINEL) by (vm_compute; discriminate).
  split; [exact H1|]. split; [exact H2|]. split; [exact H3|].
  destruct (edge_wait_steps 5 1 17 100 [] _ _ _ H1 H2) as (_ & Hret & Hmore).
  assert (Ho : outcome_of (mexFunction 5 1 [5; 17; 100] Sim.edge_at_third_look)
               = Ret tt) by (apply (Hret 2%nat); [exact H3 | lia]).
  split; [exact Ho|]. split; [apply Hmore; [exact Ho | lia]|].
  assert (H4 : init_phase Sim.idle = (Ret tt, Sim.idle, [])) by reflexivity.
  split; [exact H4|]. split.
  - destruct (edge_wait_steps 3 1 99 100 [] _ _ _ H4 H2)
      as ((polls & tail & _ & _ & [(_ & _ & _ & Hs)|(n & v & rc & isr & v' & Hr & _)]) & _).
    + exact Hs.
    + vm_compute in Hr. discriminate Hr.
  - destruct (edge_wait_steps 3 1 17 100 [] _ _ _ H4 H2)
      as ((polls & tail & _ & _ & [(_ & _ & _ & Hs)|(n & v & rc & isr & v' & Hr & _)]) & _).
    + exact Hs.
    + vm_compute in Hr. discriminate Hr.
Defined.

Lemma abort_conditions_witness :
  init_phase Sim.idle = (Ret tt, Sim.idle, [])
  /\ is_abort (outcome_of (mexFunction 0 0 [1; 17; -1] Sim.idle)) = true
  /\ plhs0 (final (mexFunction 0 1 [0; 17] Sim.idle)) = Some 0
  /\ outcome_of (mexFunction 0 0 [1; 99; 1] Sim.idle) = Ret tt
  /\ plhs0 (final (mexFunction 0 0 [1; 99; 1] Sim.idle)) = None.
Proof.
  assert (H1 : init_phase Sim.idle = (Ret tt, Sim.idle, [])) by reflexivity.
  split; [exact H1|].
  destruct (abort_conditions 0 0 [1; 17; -1] Sim.idle) as (Ha & _).
  destruct (abort_conditions 0 1 [0; 17] Sim.idle) as (_ & Hread & _).
  destruct (abort_conditions 0 0 [1; 99; 1] Sim.idle) as (_ & _ & Hdrop).
  split; [rewrite Ha; reflexivity|].
  destruct (Hread 17 [] _ _ eq_refl H1) as (_ & Hp & _).
  split; [exact Hp|].
  destruct (Hdrop 1 99 1 [] _ _ eq_refl H1) as (Ho & Hq & _).
  - left. split; [reflexivity | lia].
  - split; [exact Ho | exact Hq].
Defined.

Lemma initialised_once_between_teardowns_witness :
  initialized (final (mexFunction 0 1 [] (initial_state (Sim.board []))))
  = true
  /\ initialized (final (mex_flush Sim.idle)) = false
  /\ Nat.le
       (good_inits
          (snd (session [Invoke 0 1 []; Invoke 0 1 [0; 17]; Invoke 0 0 [1; 17; 1]]
                  (initial_state (Sim.board [])))))
       1.
Proof.
  destruct (initialised_once_between_teardowns 0 1 []
              [Invoke 0 1 []; Invoke 0 1 [0; 17]; Invoke 0 0 [1; 17; 1]]
              (initial_state (Sim.board [])))
    as (Hfirst & _ & _ & _ & Hsession).
  destruct (initialised_once_between_teardowns 0 1 [] [] Sim.idle)
    as (_ & _ & _ & Hflush & _).
  split; [apply Hfirst; [reflexivity | vm_compute; discriminate]|].
  split; [apply Hflush; reflexivity | apply Hsession; reflexivity].
Defined.

(** * Further properties of the dispatcher *)

Section Coverage.

Context {W : Type} `{BW : Backend W}.

Implicit Types (s : state W) (t : list event) (prhs : list Z).

(** ** The usage text *)

(** X1: A call with fewer than two arguments that is not the revision query
    (no argument and exactly one output) prints the usage text and
    returns: once the initialisation phase has returned, nothing else is
    added to the trace, the state is as the initialisation left it, and
    the first argument is not looked at. *)
Theorem short_call_prints_usage fuel nlhs prhs s s1 t0 :
  init_phase s = (Ret tt, s1, t0) ->
  (List.length prhs < 2)%nat ->
  prhs <> [] \/ nlhs <> 1 ->
  mexFunction fuel nlhs prhs s = (Ret tt, s1, t0 ++ [Usage]).
Proof.
  intros E Hn Hq. unfold mexFunction. rewrite (bind_ret _ _ _ _ _ _ E).
  replace (Z.of_nat (List.length prhs) <? 2) with true
    by (symmetry; apply Z.ltb_lt; lia).
  replace ((Z.of_nat (List.length prhs) =? 0) && (nlhs =? 1)) with false.
  - reflexivity.
  - symmetry. apply andb_false_iff. destruct Hq as [Hp|Hl].
    + left. apply Z.eqb_neq. destruct prhs; [contradiction|]. cbn. lia.
    + right. now apply Z.eqb_neq.
Qed.

(** ** Which inputs matter *)

(** X2: A call with at least one argument depends on its first three
    arguments only, and not on the number of expected outputs. *)
Theorem only_three_arguments_matter fuel nlhs nlhs' a rest s :
  mexFunction fuel nlhs (a :: rest) s
  = mexFunction fuel nlhs' (firstn 3 (a :: rest)) s.
Proof.
  destruct rest as [|b [|c rest]]; [reflexivity | reflexivity |].
  cbn [firstn]. unfold mexFunction.
  replace (Z.of_nat (List.length (a :: b :: c :: rest)) =? 0) with false
    by (symmetry; apply Z.eqb_neq; cbn [List.length]; lia).
  replace (Z.of_nat (List.length (a :: b :: c :: rest)) <? 2) with false
    by (symmetry; apply Z.ltb_ge; cbn [List.length]; lia).
  now rewrite (third_arg_given a b c rest).
Qed.

(** ** Only the edge wait can fail to return *)

Lemma dispatch_fuel fuel fuel' cmd pin arg :
  cmd <> 5 -> dispatch fuel cmd pin arg = dispatch fuel' cmd pin arg.
Proof.
  intros H5. unfold dispatch.
  replace (cmd =? 5) with false by (symmetry; now apply Z.eqb_neq).
  reflexivity.
Qed.

Lemma dispatch_no_spin fuel cmd pin arg s :
  cmd <> 5 -> outcome_of (dispatch fuel cmd pin arg s) <> Spin.
Proof.
  intros H5.
  destruct (Z.eq_dec cmd 0) as [->|H0]; [rewrite dispatch_0; discriminate|].
  destruct (Z.eq_dec cmd 1) as [->|H1].
  { rewrite dispatch_1. destruct (Z.lt_ge_cases arg 0).
    - now rewrite case_write_missing.
    - now rewrite case_write_run. }
  destruct (Z.eq_dec cmd 2) as [->|H2].
  { rewrite dispatch_2. destruct (Z.lt_ge_cases arg 0).
    - now rewrite case_pwm_missing.
    - destruct (Z.lt_ge_cases 1024 arg).
      + now rewrite case_pwm_invalid.
      + rewrite case_pwm_run by lia. cbn.
        now destruct (answer (GpioPWM pin arg) (world_at_pwm pin (world s)) <? 0). }
  destruct (Z.eq_dec cmd 3) as [->|H3].
  { rewrite dispatch_3. destruct (Z.lt_ge_cases arg 0).
    - now rewrite case_mode_missing.
    - now rewrite case_mode_run. }
  destruct (Z.eq_dec cmd 4) as [->|H4].
  { rewrite dispatch_4. destruct (Z.lt_ge_cases arg (-1)).
    - now rewrite case_pull_missing.
    - now rewrite case_pull_run. }
  now rewrite dispatch_unknown by lia.
Qed.

(** X3: Every call other than a command 5 with at least two arguments comes
    back, by return or by abort: it never spins, and its run does not
    depend on the fuel. *)
Theorem only_edge_wait_can_spin fuel fuel' nlhs prhs s :
  (List.length prhs < 2)%nat \/ nth 0 prhs 0 <> 5 ->
  outcome_of (mexFunction fuel nlhs prhs s) <> Spin
  /\ mexFunction fuel' nlhs prhs s = mexFunction fuel nlhs prhs s.
Proof.
  intros Hc.
  destruct (init_phase_cases s) as [(_ & _ & E)|(s1 & t0 & E & _)].
  - rewrite !(mexFunction_init_abort _ _ _ _ _ _ _ E). split; [discriminate|reflexivity].
  - destruct (Nat.lt_ge_cases (List.length prhs) 2) as [Hn|Hn].
    + unfold mexFunction. rewrite !(bind_ret _ _ _ _ _ _ E).
      replace (Z.of_nat (List.length prhs) <? 2) with true
        by (symmetry; apply Z.ltb_lt; lia).
      split; [|reflexivity].
      destruct ((Z.of_nat (List.length prhs) =? 0) && (nlhs =? 1)); discriminate.
    + destruct Hc as [Hc|Hc]; [lia|].
      rewrite !(mexFunction_dispatch _ _ _ _ _ _ Hn E).
      rewrite (dispatch_fuel fuel' fuel _ _ _ Hc). split; [|reflexivity].
      cbn [outcome_of fst]. now apply dispatch_no_spin.
Qed.

(** ** Arguments below -1 of commands 4 and 5 *)

Lemma dispatch_below_minus_one fuel cmd pin arg s :
  cmd = 4 \/ cmd = 5 -> arg < -1 ->
  dispatch fuel cmd pin arg s = (Abort (missing_msg45 cmd), s, []).
Proof.
  intros [-> | ->] Ha.
  - rewrite dispatch_4. now apply case_pull_missing.
  - rewrite dispatch_5. now apply case_edge_wait_missing.
Qed.

(** X4: For commands 4 and 5 a third argument below -1 that is given
    explicitly cannot be told from an omitted one: the whole run of the
    call equals the run of the call without the argument, which is the
    missing-argument abort with nothing added to the trace of the
    initialisation phase. *)
Theorem below_minus_one_reads_as_missing fuel nlhs cmd pin arg rest s :
  cmd = 4 \/ cmd = 5 -> arg < -1 ->
  mexFunction fuel nlhs (cmd :: pin :: arg :: rest) s
  = mexFunction fuel nlhs [cmd; pin] s
  /\ is_abort (outcome_of (mexFunction fuel nlhs (cmd :: pin :: arg :: rest) s))
     = true
  /\ trace_of (mexFunction fuel nlhs (cmd :: pin :: arg :: rest) s)
     = trace_of (init_phase s)
  /\ (firstTime s = false ->
      mexFunction fuel nlhs (cmd :: pin :: arg :: rest) s
      = (Abort (missing_msg45 cmd), s, [])).
Proof.
  intros Hc Ha. split.
  - apply mexFunction_same_dispatch; [cbn; lia | cbn; lia |].
    intros s1. rewrite third_arg_given, third_arg_omitted. cbn [nth].
    rewrite !dispatch_below_minus_one; trivial. unfold SENTINEL. lia.
  - pose proof (mexFunction_abort_in_dispatch fuel nlhs
                  (cmd :: pin :: arg :: rest) s (missing_msg45 cmd)) as H.
    cbn zeta in H. destruct H as (H1 & H2 & _ & H4); auto.
    + cbn. lia.
    + intros s1. rewrite third_arg_given. cbn [nth].
      now apply dispatch_below_minus_one.
Qed.

(** ** What commands 1, 3 and 4 pass on *)

(** X5: Command 1 passes any non-negative level to [gpioWrite] as it is (the
    level is not held to 0 or 1), makes no other backend call, ignores the
    return code and leaves the result slot alone. *)
Theorem write_forwards_level fuel nlhs pin arg rest s s1 t0 :
  init_phase s = (Ret tt, s1, t0) ->
  0 <= arg ->
  mexFunction fuel nlhs (1 :: pin :: arg :: rest) s
  = (Ret tt, set_world (after (GpioWrite pin arg) (world s1)) s1,
     t0 ++ [Call (GpioWrite pin arg) (answer (GpioWrite pin arg) (world s1))]).
Proof.
  intros E Ha. rewrite (mexFunction_cons _ _ _ _ _ _ _ _ E).
  now rewrite third_arg_given, dispatch_1, (case_write_run _ _ _ Ha).
Qed.

(** X6: Command 3 makes one [gpioSetMode] call: input for the argument 0 and
    output for every positive argument, not only for 1. *)
Theorem mode_of_argument fuel nlhs pin arg rest s s1 t0 :
  init_phase s = (Ret tt, s1, t0) ->
  0 <= arg ->
  exists m,
    (arg = 0 -> m = PI_INPUT) /\ (0 < arg -> m = PI_OUTPUT)
    /\ mexFunction fuel nlhs (3 :: pin :: arg :: rest) s
       = (Ret tt, set_world (after (GpioSetMode pin m) (world s1)) s1,
          t0 ++ [Call (GpioSetMode pin m)
                   (answer (GpioSetMode pin m) (world s1))]).
Proof.
  intros E Ha. exists (if arg =? 0 then PI_INPUT else PI_OUTPUT).
  split; [|split].
  - now intros ->.
  - intros Hp. now replace (arg =? 0) with false by (symmetry; apply Z.eqb_neq; lia).
  - rewrite (mexFunction_cons _ _ _ _ _ _ _ _ E).
    now rewrite third_arg_given, dispatch_3, (case_mode_run _ _ _ Ha).
Qed.

(** X7: Command 4 takes every argument from -1 upwards: each positive
    argument, not only 1, selects the pull-up, 0 no resistor and -1 the
    pull-down; one [gpioSetPullUpDown] call is made and its return code
    is ignored. *)
Theorem pull_of_argument fuel nlhs pin arg rest s s1 t0 :
  init_phase s = (Ret tt, s1, t0) ->
  -1 <= arg ->
  exists p,
    (arg = -1 -> p = PI_PUD_DOWN) /\ (arg = 0 -> p = PI_PUD_OFF)
    /\ (0 < arg -> p = PI_PUD_UP)
    /\ mexFunction fuel nlhs (4 :: pin :: arg :: rest) s
       = (Ret tt, set_world (after (GpioSetPullUpDown pin p) (world s1)) s1,
          t0 ++ [Call (GpioSetPullUpDown pin p)
                   (answer (GpioSetPullUpDown pin p) (world s1))]).
Proof.
  intros E Ha. exists (pull_of arg). unfold pull_of at 1 2 3.
  split; [|split; [|split]].
  - now intros ->.
  - now intros ->.
  - intros Hp.
    replace (arg =? 0) with false by (symmetry; apply Z.eqb_neq; lia).
    now replace (0 <? arg) with true by (symmetry; apply Z.ltb_lt; lia).
  - rewrite (mexFunction_cons _ _ _ _ _ _ _ _ E).
    now rewrite third_arg_given, dispatch_4, (case_pull_run _ _ _ Ha).
Qed.

(** ** What ends the edge wait *)

Lemma serve_interrupt_cases s :
  (fst (deliver (world s)) = None
   /\ serve_interrupt s = (Ret tt, set_world (snd (deliver (world s))) s, []))
  \/ (exists gpio level tick,
        serve_interrupt s
        = (Ret tt,
           set_isrDone level (set_world (snd (deliver (world s))) s),
           [Isr IsrCallback gpio level tick])).
Proof.
  unfold serve_interrupt.
  destruct (fst (deliver (world s))) as [[[] [[gpio level] tick]]|].
  - right. exists gpio, level, tick. reflexivity.
  - left. split; reflexivity.
Qed.

Lemma armed_isrDone pin arg s : isrDone (armed pin arg s) = SENTINEL.
Proof.
  unfold armed.
  now destruct (answer (GpioSetISRFunc pin EITHER_EDGE arg (Some IsrCallback))
                  (world s) =? 0).
Qed.

Lemma busy_wait_silent fuel : forall s,
  isrDone s = SENTINEL -> silent s ->
  outcome_of (busy_wait fuel s) = Spin.
Proof.
  induction fuel as [|fuel IH]; intros s Hd Hs; [reflexivity|].
  rewrite busy_wait_S. cbn zeta.
  destruct (serve_interrupt_cases s) as [[_ E]|(gpio & level & tick & E)].
  - rewrite E. cbn [final trace_of fst snd isrDone set_world].
    rewrite Hd, Z.eqb_refl. cbn [outcome_of fst].
    apply IH; [exact Hd|].
    intros k. specialize (Hs (S k)). cbn [polled] in Hs. now rewrite E in Hs.
  - exfalso. specialize (Hs 0%nat). cbn [polled] in Hs.
    unfold serve_interrupt in E. rewrite Hs in E. discriminate E.
Qed.

(** X8: The wait of command 5 is ended by the callback and by nothing else:
    when the interrupt thread reports nothing after the registration, the
    call is still polling whatever fuel it is given, for every timeout
    argument and whether or not the registration succeeded. *)
Theorem edge_wait_needs_callback fuel nlhs pin arg rest s s1 t0 :
  init_phase s = (Ret tt, s1, t0) ->
  -1 <= arg ->
  silent (armed pin arg s1) ->
  outcome_of (mexFunction fuel nlhs (5 :: pin :: arg :: rest) s) = Spin.
Proof.
  intros E Ha Hs. rewrite (mexFunction_edge_wait _ _ _ _ _ _ _ _ E).
  rewrite (case_edge_wait_run _ _ _ _ Ha). cbn zeta.
  now rewrite (busy_wait_silent fuel _ (armed_isrDone pin arg s1) Hs).
Qed.

Lemma busy_wait_exit fuel : forall s,
  isrDone s = SENTINEL ->
  outcome_of (busy_wait fuel s) = Ret tt ->
  exists pre gpio level tick,
    trace_of (busy_wait fuel s)
    = pre ++ [Isr IsrCallback gpio level tick; Vload level]
    /\ level <> SENTINEL
    /\ forallb is_poll_event pre = true.
Proof.
  induction fuel as [|fuel IH]; intros s Hd Ho; [discriminate|].
  rewrite busy_wait_S in *. cbn zeta in *.
  destruct (serve_interrupt_cases s) as [[_ E]|(gpio & level & tick & E)];
    rewrite E in *; cbn [final trace_of fst snd isrDone set_world set_isrDone] in *.
  - rewrite Hd, Z.eqb_refl in *. cbn [outcome_of trace_of fst snd] in *.
    destruct (IH (set_world (snd (deliver (world s))) s) Hd Ho)
      as (pre & g & l & k & Ht & Hl & Hp).
    exists (Vload SENTINEL :: pre), g, l, k. rewrite Ht. cbn. auto.
  - destruct (Z.eqb_spec level SENTINEL) as [Hl|Hl];
      cbn [outcome_of trace_of fst snd] in *.
    + subst level.
      destruct (IH (set_isrDone SENTINEL
                      (set_world (snd (deliver (world s))) s)) eq_refl Ho)
        as (pre & g & l & k & Ht & Hl & Hp).
      exists (Isr IsrCallback gpio SENTINEL tick :: Vload SENTINEL :: pre), g, l, k.
      rewrite Ht. cbn. auto.
    + exists [], gpio, level, tick. cbn. auto.
Qed.

(** X9: A command 5 that returns has had its callback run: the loop is left
    by the read that directly follows an invocation of [isrCallback], the
    value read is the level the callback was given and it is not the
    sentinel, and the unregistration comes next. *)
Theorem edge_wait_return_follows_callback fuel nlhs pin arg rest s s1 t0 :
  init_phase s = (Ret tt, s1, t0) ->
  -1 <= arg ->
  outcome_of (mexFunction fuel nlhs (5 :: pin :: arg :: rest) s) = Ret tt ->
  exists rc pre gpio level tick rc' tail,
    trace_of (mexFunction fuel nlhs (5 :: pin :: arg :: rest) s)
    = t0 ++ Vstore SENTINEL
         :: Call (GpioSetISRFunc pin EITHER_EDGE arg (Some IsrCallback)) rc
         :: pre
         ++ Isr IsrCallback gpio level tick :: Vload level
         :: Call (GpioSetISRFunc pin EITHER_EDGE arg None) rc' :: tail
    /\ level <> SENTINEL
    /\ forallb is_poll_event pre = true.
Proof.
  intros E Ha. rewrite (mexFunction_edge_wait _ _ _ _ _ _ _ _ E).
  rewrite (case_edge_wait_run _ _ _ _ Ha). cbn zeta.
  destruct (outcome_of (busy_wait fuel (armed pin arg s1))) as [[]| |] eqn:Hb;
    cbn [outcome_of fst]; try discriminate.
  intros _.
  destruct (busy_wait_exit fuel _ (armed_isrDone pin arg s1) Hb)
    as (pre & gpio & level & tick & Ht & Hl & Hp).
  eexists _, pre, gpio, level, tick, _, _. split; [|split; trivial].
  cbn [trace_of snd app]. rewrite Ht, <- app_assoc. reflexivity.
Qed.

(** ** A stale signal *)

Lemma init_phase_isrDone v s s1 t0 :
  init_phase s = (Ret tt, s1, t0) ->
  init_phase (set_isrDone v s) = (Ret tt, set_isrDone v s1, t0).
Proof.
  intros E.
  destruct (init_phase_cases s) as [(_ & _ & E')|(s1' & t0' & _ & [Hf|[Hf Hrc]] & _)].
  - rewrite E in E'. discriminate.
  - rewrite (init_phase_skip _ Hf) in E. inversion E; subst.
    now apply init_phase_skip.
  - rewrite (init_phase_first _ Hf Hrc) in E. inversion E; subst.
    now rewrite (init_phase_first (set_isrDone v s) Hf Hrc).
Qed.

Lemma armed_set_isrDone pin arg v s :
  armed pin arg (set_isrDone v s) = armed pin arg s.
Proof. reflexivity. Qed.

(** X10: [isrDone] is reset before the callback is registered, so what an
    earlier wait left in it has no effect: a command 5 that passes the
    argument check runs the same from every value of [isrDone]. *)
Theorem edge_wait_ignores_stale_signal fuel nlhs pin arg rest v s s1 t0 :
  init_phase s = (Ret tt, s1, t0) ->
  -1 <= arg ->
  mexFunction fuel nlhs (5 :: pin :: arg :: rest) (set_isrDone v s)
  = mexFunction fuel nlhs (5 :: pin :: arg :: rest) s.
Proof.
  intros E Ha.
  rewrite (mexFunction_edge_wait _ _ _ _ _ _ _ _ E).
  rewrite (mexFunction_edge_wait _ _ _ _ _ _ _ _ (init_phase_isrDone v _ _ _ E)).
  rewrite !(case_edge_wait_run _ _ _ _ Ha). cbn zeta.
  rewrite armed_set_isrDone. reflexivity.
Qed.

(** ** The result slot *)

Lemma dispatch_result fuel cmd pin arg s :
  outcome_of (dispatch fuel cmd pin arg s) = Ret tt ->
  has_result (final (dispatch fuel cmd pin arg s))
  = (cmd =? 0) || (cmd =? 5) || has_result s.
Proof.
  destruct (Z.eq_dec cmd 0) as [->|H0]; [reflexivity|].
  destruct (Z.eq_dec cmd 1) as [->|H1].
  { rewrite dispatch_1. destruct (Z.lt_ge_cases arg 0).
    - now rewrite case_write_missing.
    - now rewrite case_write_run. }
  destruct (Z.eq_dec cmd 2) as [->|H2].
  { rewrite dispatch_2. destruct (Z.lt_ge_cases arg 0).
    - now rewrite case_pwm_missing.
    - destruct (Z.lt_ge_cases 1024 arg).
      + now rewrite case_pwm_invalid.
      + now rewrite case_pwm_run by lia. }
  destruct (Z.eq_dec cmd 3) as [->|H3].
  { rewrite dispatch_3. destruct (Z.lt_ge_cases arg 0).
    - now rewrite case_mode_missing.
    - now rewrite case_mode_run. }
  destruct (Z.eq_dec cmd 4) as [->|H4].
  { rewrite dispatch_4. destruct (Z.lt_ge_cases arg (-1)).
    - now rewrite case_pull_missing.
    - now rewrite case_pull_run. }
  destruct (Z.eq_dec cmd 5) as [->|H5].
  { rewrite dispatch_5. destruct (Z.lt_ge_cases arg (-1)).
    - now rewrite case_edge_wait_missing.
    - rewrite case_edge_wait_run by trivial. cbn zeta.
      now destruct (outcome_of (busy_wait fuel (armed pin arg s))). }
  now rewrite dispatch_unknown by lia.
Qed.

(** X11: Starting from an empty result slot, a call that returns has assigned
    [plhs[0]] exactly when it is the revision query or a command 0 or 5
    with at least two arguments, whatever number of outputs was asked
    for: commands 1 to 4 and the usage text leave the slot empty, and
    command 0 fills it even for a call that expects no output. *)
Theorem result_slot_assigned fuel nlhs prhs s :
  plhs0 s = None ->
  outcome_of (mexFunction fuel nlhs prhs s) = Ret tt ->
  has_result (final (mexFunction fuel nlhs prhs s)) = assigns_result nlhs prhs.
Proof.
  intros Hp. unfold assigns_result.
  destruct (init_phase_cases s)
    as [(_ & _ & E)|(s1 & t0 & E & _ & _ & _ & Hp1 & _)].
  - rewrite (mexFunction_init_abort _ _ _ _ _ _ _ E). discriminate.
  - assert (Hr1 : has_result s1 = false) by (unfold has_result; now rewrite Hp1, Hp).
    destruct (Z.leb_spec 2 (Z.of_nat (List.length prhs))) as [Hn|Hn].
    + assert (Hl : (2 <= List.length prhs)%nat) by lia.
      rewrite (mexFunction_dispatch _ _ _ _ _ _ Hl E).
      cbn [outcome_of final fst snd]. intros Ho.
      rewrite (dispatch_result _ _ _ _ _ Ho), Hr1.
      replace (Z.of_nat (List.length prhs) =? 0) with false
        by (symmetry; apply Z.eqb_neq; lia).
      cbn [andb orb]. now rewrite orb_false_r.
    + unfold mexFunction. rewrite (bind_ret _ _ _ _ _ _ E).
      replace (Z.of_nat (List.length prhs) <? 2) with true
        by (symmetry; apply Z.ltb_lt; lia).
      destruct ((Z.of_nat (List.length prhs) =? 0) && (nlhs =? 1));
        intros _; cbn [orb andb]; [reflexivity|].
      exact Hr1.
Qed.

(** ** No life-cycle call outside the initialisation phase *)

Lemma never_ret {A} c0 (a : A) : never_calls (W:=W) c0 (ret a).
Proof. intros s. cbn. auto. Qed.

Lemma never_abort {A} c0 msg : never_calls (W:=W) c0 (mexErrMsgTxt (A:=A) msg).
Proof. intros s. cbn. auto. Qed.

Lemma never_bind {A B} c0 (m : M (W:=W) A) (f : A -> M (W:=W) B) :
  never_calls c0 m -> (forall a, never_calls c0 (f a)) ->
  never_calls c0 (bind m f).
Proof.
  intros Hm Hf s. unfold bind. specialize (Hm s).
  destruct (m s) as [[[a| |] s1] t1]; cbn in *; trivial.
  rewrite calls_app, in_app_iff. specialize (Hf a s1). tauto.
Qed.

Lemma never_when c0 b (m : M (W:=W) unit) :
  never_calls c0 m -> never_calls c0 (when b m).
Proof. destruct b; cbn; auto using never_ret. Qed.

Lemma never_if {A} c0 (b : bool) (m1 m2 : M (W:=W) A) :
  never_calls c0 m1 -> never_calls c0 m2 ->
  never_calls c0 (if b then m1 else m2).
Proof. now destruct b. Qed.

Lemma never_pigpio c0 c : c <> c0 -> never_calls (W:=W) c0 (pigpio c).
Proof. intros Hc s. cbn. intuition congruence. Qed.

Lemma never_read_isrDone c0 : never_calls (W:=W) c0 read_isrDone.
Proof.
  intros s. rewrite read_isrDone_run.
  destruct (serve_interrupt_run s) as (t & E & Ht & _).
  cbn [trace_of snd]. rewrite E. cbn [trace_of snd]. rewrite calls_app.
  rewrite (calls_poll _ (forallb_isr_poll _ Ht)). cbn. auto.
Qed.

Lemma never_busy_wait c0 fuel : never_calls (W:=W) c0 (busy_wait fuel).
Proof.
  induction fuel as [|fuel IH]; [intros s; cbn; auto|].
  cbn [busy_wait]. apply never_bind; [apply never_read_isrDone|].
  intros v. apply never_if; [exact IH | apply never_ret].
Qed.

Lemma never_silent_step c0 (m : M (W:=W) unit) :
  (forall s, trace_of (m s) = [] \/ exists e, trace_of (m s) = [e] /\ calls [e] = []) ->
  never_calls c0 m.
Proof.
  intros H s. destruct (H s) as [->|(e & -> & ->)]; cbn; auto.
Qed.

Lemma dispatch_never_terminates fuel cmd pin arg :
  never_calls (W:=W) GpioTerminate (dispatch fuel cmd pin arg).
Proof.
  unfold dispatch, case_read, case_write, case_pwm, fix_pwm_range, case_mode,
    case_pull, case_edge_wait, gpioRead, gpioWrite, gpioGetPWMrange,
    gpioSetPWMrange, gpioPWM, gpioSetMode, gpioSetPullUpDown, gpioSetISRFunc.
  repeat first
    [ apply never_pigpio; discriminate
    | apply never_ret
    | apply never_abort
    | apply never_busy_wait
    | apply never_read_isrDone
    | apply never_if
    | apply never_bind; [|intros ?]
    | apply never_when
    | apply never_silent_step; intros ?; cbn; eauto ].
Qed.

Lemma after_init_never_terminates fuel nlhs prhs :
  never_calls (W:=W) GpioTerminate
    (if (Z.of_nat (List.length prhs) =? 0) && (nlhs =? 1) then query_revision
     else if Z.of_nat (List.length prhs) <? 2 then print_usage
          else dispatch fuel (nth 0 prhs 0) (nth 1 prhs 0) (third_arg prhs)).
Proof.
  apply never_if; [|apply never_if; [|apply dispatch_never_terminates]].
  - unfold query_revision, gpioHardwareRevision.
    apply never_bind; [apply never_pigpio; discriminate|]. intros v.
    apply never_bind; [|intros ?]; apply never_silent_step; intros ?; cbn; auto.
  - apply never_silent_step. intros ?. cbn. eauto.
Qed.

(** What follows the initialisation phase in a call. *)
Lemma mexFunction_after_init fuel nlhs prhs s :
  exists t,
    trace_of (mexFunction fuel nlhs prhs s) = trace_of (init_phase s) ++ t
    /\ ~ In GpioInitialise (calls t)
    /\ ~ In GpioTerminate (calls t)
    /\ firstTime (final (mexFunction fuel nlhs prhs s))
       = firstTime (final (init_phase s))
    /\ atExit (final (mexFunction fuel nlhs prhs s))
       = atExit (final (init_phase s)).
Proof.
  destruct (init_phase_cases s) as [(_ & _ & E)|(s1 & t0 & E & _)].
  - rewrite (mexFunction_init_abort _ _ _ _ _ _ _ E), E.
    exists []. rewrite app_nil_r. cbn. auto.
  - unfold mexFunction. rewrite (bind_ret _ _ _ _ _ _ E), E.
    cbn [trace_of final fst snd].
    destruct (keeps_after_init fuel nlhs prhs s1) as (H1 & H2 & H3).
    pose proof (after_init_never_terminates fuel nlhs prhs s1) as H4.
    eexists. split; [reflexivity|]. auto.
Qed.

(** X12: After the initialisation phase a call never calls [gpioInitialise] or
    [gpioTerminate] and never touches [firstTime] or the registered exit
    hook, whether it returns, aborts or spins; in particular no call ever
    tears the subsystem down, so an abort after a successful bring-up
    leaves the subsystem up and the hook registered. *)
Theorem no_lifecycle_call_after_init fuel nlhs prhs s :
  (exists t,
      trace_of (mexFunction fuel nlhs prhs s) = trace_of (init_phase s) ++ t
      /\ ~ In GpioInitialise (calls t)
      /\ ~ In GpioTerminate (calls t))
  /\ ~ In GpioTerminate (calls (trace_of (mexFunction fuel nlhs prhs s)))
  /\ firstTime (final (mexFunction fuel nlhs prhs s))
     = firstTime (final (init_phase s))
  /\ atExit (final (mexFunction fuel nlhs prhs s))
     = atExit (final (init_phase s)).
Proof.
  destruct (mexFunction_after_init fuel nlhs prhs s) as (t & Ht & H1 & H2 & H3 & H4).
  split; [exists t; auto|]. split; [|auto].
  rewrite Ht, calls_app, in_app_iff. intros [Hi|Hi]; [|tauto].
  apply init_phase_calls in Hi. discriminate Hi.
Qed.

(** ** Bring-ups and teardowns over a session *)

Lemma lifecycle_app t1 t2 : lifecycle (t1 ++ t2) = lifecycle t1 ++ lifecycle t2.
Proof. apply flat_map_app. Qed.

Lemma lifecycle_none t :
  ~ In GpioInitialise (calls t) -> ~ In GpioTerminate (calls t) ->
  lifecycle t = [].
Proof.
  induction t as [|e t IH]; cbn; trivial.
  destruct e as [[] rc| | | | |]; cbn; intros H1 H2;
    try (apply IH; tauto); tauto.
Qed.

(** One call, seen from a state in which the hook matches the flag. *)
Lemma mexFunction_lifecycle fuel nlhs prhs s :
  hook_matches_flag s ->
  let r := mexFunction fuel nlhs prhs s in
  let rc := answer GpioInitialise (world s) in
  lifecycle (trace_of r) = (if firstTime s && (0 <=? rc) then [true] else [])
  /\ initialized (final r) = initialized s || (0 <=? rc)
  /\ hook_matches_flag (final r).
Proof.
  intros Hh. cbn zeta. unfold initialized.
  destruct (mexFunction_after_init fuel nlhs prhs s) as (t & Ht & H1 & H2 & H3 & H4).
  rewrite Ht, lifecycle_app, (lifecycle_none _ H1 H2), app_nil_r.
  unfold hook_matches_flag in *. rewrite H3, H4.
  destruct (firstTime s) eqn:Hf; cbn [andb negb orb].
  - destruct (Z.lt_ge_cases (answer GpioInitialise (world s)) 0) as [Hrc|Hrc].
    + rewrite (init_phase_fail _ Hf Hrc). cbn. rewrite Hf.
      replace (0 <=? answer GpioInitialise (world s)) with false
        by (symmetry; apply Z.leb_gt; lia).
      auto.
    + rewrite (init_phase_first _ Hf Hrc). cbn.
      replace (0 <=? answer GpioInitialise (world s)) with true
        by (symmetry; apply Z.leb_le; lia).
      auto.
  - rewrite (init_phase_skip _ Hf). cbn. rewrite Hf. auto.
Qed.

Lemma mex_flush_lifecycle s :
  hook_matches_flag s ->
  lifecycle (trace_of (mex_flush s)) = (if firstTime s then [] else [false])
  /\ initialized (final (mex_flush s)) = false
  /\ hook_matches_flag (final (mex_flush s)).
Proof.
  unfold hook_matches_flag, initialized, mex_flush. intros Hh. rewrite Hh.
  destruct (firstTime s) eqn:Hf; cbn; rewrite ?Hf; auto.
Qed.

(** X13: Over any sequence of calls and flushes of a freshly loaded MEX file,
    successful [gpioInitialise] calls and [gpioTerminate] calls
    alternate, beginning with a bring-up: the subsystem is never brought
    up twice without a teardown in between and never torn down while it
    is down (not after a failed bring-up either), and at the end the exit
    hook is registered exactly if the subsystem is up. *)
Theorem session_well_bracketed acts s :
  hook_matches_flag s ->
  well_bracketed (initialized s) (lifecycle (snd (session acts s))) = true
  /\ hook_matches_flag (fst (session acts s)).
Proof.
  revert s.
  induction acts as [|[fuel nlhs prhs|] acts IH]; intros s Hh;
    [cbn; auto | |].
  - cbn [session].
    assert (Hh' : hook_matches_flag (set_plhs0 None s)) by exact Hh.
    destruct (mexFunction_lifecycle fuel nlhs prhs _ Hh') as (Hl & Hi & Hk).
    cbn zeta in Hl, Hi. cbn [set_plhs0 firstTime world] in Hl.
    set (r := mexFunction fuel nlhs prhs (set_plhs0 None s)) in *.
    assert (Hi' : initialized (final r)
                  = initialized s || (0 <=? answer GpioInitialise (world s)))
      by exact Hi.
    assert (Hone : well_bracketed (initialized s) (lifecycle (trace_of r)) = true).
    { rewrite Hl. unfold initialized.
      destruct (firstTime s), (0 <=? answer GpioInitialise (world s)); reflexivity. }
    destruct (IH (final r) Hk) as (I1 & I2).
    assert (Hall : well_bracketed (initialized s)
                     (lifecycle (trace_of r ++ snd (session acts (final r))))
                   = true).
    { rewrite lifecycle_app, Hl. rewrite Hi' in I1. unfold initialized in *.
      destruct (firstTime s), (0 <=? answer GpioInitialise (world s));
        cbn in *; exact I1. }
    destruct (outcome_of r); cbn [fst snd]; auto.
  - cbn [session]. destruct (mex_flush_lifecycle s Hh) as (Hl & Hi & Hk).
    destruct (IH (final (mex_flush s)) Hk) as (I1 & I2).
    cbn [fst snd]. split; [|exact I2].
    rewrite lifecycle_app, Hl. rewrite Hi in I1. unfold initialized.
    destruct (firstTime s); cbn; exact I1.
Qed.

End Coverage.

(** ** Runs of the further properties on the reference backend *)

Lemma sim_deliver_no_pending (w : Sim.hw) :
  Sim.pending w = [] -> Sim.sim_deliver w = (None, w).
Proof.
  intros H. unfold Sim.sim_deliver. rewrite H.
  now destruct (Sim.handler w) as [[pin f]|].
Qed.

(** With nothing pending the reference backend never reports. *)
Lemma sim_silent_no_pending (s : state Sim.hw) :
  Sim.pending (world s) = [] -> silent s.
Proof.
  intros H k. revert s H.
  induction k as [|k IH]; intros s H; cbn [polled].
  - cbn. now rewrite (sim_deliver_no_pending _ H).
  - apply IH. unfold serve_interrupt. cbn.
    rewrite (sim_deliver_no_pending _ H). exact H.
Qed.

Lemma short_call_prints_usage_witness :
  init_phase Sim.idle = (Ret tt, Sim.idle, [])
  /\ (List.length [99] < 2)%nat
  /\ ([99] <> [] \/ 0 <> 1)
  /\ mexFunction 0 0 [99] Sim.idle = (Ret tt, Sim.idle, [] ++ [Usage]).
Proof.
  assert (H1 : init_phase Sim.idle = (Ret tt, Sim.idle, [])) by reflexivity.
  assert (H2 : (List.length [99] < 2)%nat) by (simpl; lia).
  assert (H3 : [99] <> [] \/ 0 <> 1) by (right; lia).
  split; [exact H1|]. split; [exact H2|]. split; [exact H3|].
  exact (short_call_prints_usage 0 0 [99] _ _ _ H1 H2 H3).
Defined.

Lemma only_edge_wait_can_spin_witness :
  ((List.length [2; 18; 512] < 2)%nat \/ nth 0 [2; 18; 512] 0 <> 5)
  /\ outcome_of (mexFunction 0 0 [2; 18; 512] Sim.idle) <> Spin
  /\ mexFunction 7 0 [2; 18; 512] Sim.idle = mexFunction 0 0 [2; 18; 512] Sim.idle.
Proof.
  assert (H1 : (List.length [2; 18; 512] < 2)%nat \/ nth 0 [2; 18; 512] 0 <> 5)
    by (right; simpl; lia).
  split; [exact H1|].
  exact (only_edge_wait_can_spin 0 7 0 [2; 18; 512] Sim.idle H1).
Defined.

Lemma below_minus_one_reads_as_missing_witness :
  (5 = 4 \/ 5 = 5) /\ -2 < -1
  /\ mexFunction 3 1 [5; 17; -2] Sim.idle = mexFunction 3 1 [5; 17] Sim.idle
  /\ mexFunction 3 1 [5; 17; -2] Sim.idle
     = (Abort timeout_missing_msg, Sim.idle, []).
Proof.
  assert (H1 : 5 = 4 \/ 5 = 5) by (right; reflexivity).
  assert (H2 : -2 < -1) by lia.
  split; [exact H1|]. split; [exact H2|].
  destruct (below_minus_one_reads_as_missing 3 1 5 17 (-2) [] Sim.idle H1 H2)
    as (Heq & _ & _ & Hrun).
  split; [exact Heq | apply Hrun; reflexivity].
Defined.

Lemma write_forwards_level_witness :
  init_phase Sim.idle = (Ret tt, Sim.idle, [])
  /\ 0 <= 7
  /\ mexFunction 0 0 [1; 17; 7] Sim.idle
     = (Ret tt, Sim.idle, [Call (GpioWrite 17 7) Sim.PI_BAD_LEVEL]).
Proof.
  assert (H1 : init_phase Sim.idle = (Ret tt, Sim.idle, [])) by reflexivity.
  assert (H2 : 0 <= 7) by lia.
  split; [exact H1|]. split; [exact H2|].
  exact (write_forwards_level 0 0 17 7 [] _ _ _ H1 H2).
Defined.

Lemma mode_of_argument_witness :
  init_phase Sim.idle = (Ret tt, Sim.idle, [])
  /\ 0 <= 3
  /\ mexFunction 0 0 [3; 17; 3] Sim.idle
     = (Ret tt, Sim.idle, [Call (GpioSetMode 17 PI_OUTPUT) 0]).
Proof.
  assert (H1 : init_phase Sim.idle = (Ret tt, Sim.idle, [])) by reflexivity.
  assert (H2 : 0 <= 3) by lia.
  split; [exact H1|]. split; [exact H2|].
  destruct (mode_of_argument 0 0 17 3 [] _ _ _ H1 H2) as (m & _ & Hm & Hrun).
  rewrite Hrun, Hm by lia. reflexivity.
Defined.

Lemma pull_of_argument_witness :
  init_phase Sim.idle = (Ret tt, Sim.idle, [])
  /\ -1 <= 5
  /\ mexFunction 0 0 [4; 17; 5] Sim.idle
     = (Ret tt, Sim.idle, [Call (GpioSetPullUpDown 17 PI_PUD_UP) 0]).
Proof.
  assert (H1 : init_phase Sim.idle = (Ret tt, Sim.idle, [])) by reflexivity.
  assert (H2 : -1 <= 5) by lia.
  split; [exact H1|]. split; [exact H2|].
  destruct (pull_of_argument 0 0 17 5 [] _ _ _ H1 H2) as (p & _ & _ & Hp & Hrun).
  rewrite Hrun, Hp by lia. reflexivity.
Defined.

Lemma edge_wait_needs_callback_witness :
  init_phase Sim.idle = (Ret tt, Sim.idle, [])
  /\ -1 <= 0
  /\ silent (armed 17 0 Sim.idle)
  /\ outcome_of (mexFunction 1000 1 [5; 17; 0] Sim.idle) = Spin.
Proof.
  assert (H1 : init_phase Sim.idle = (Ret tt, Sim.idle, [])) by reflexivity.
  assert (H2 : -1 <= 0) by lia.
  assert (H3 : silent (armed 17 0 Sim.idle))
    by (apply sim_silent_no_pending; reflexivity).
  split; [exact H1|]. split; [exact H2|]. split; [exact H3|].
  exact (edge_wait_needs_callback 1000 1 17 0 [] _ _ _ H1 H2 H3).
Defined.

Lemma edge_wait_return_follows_callback_witness :
  init_phase Sim.edge_at_third_look = (Ret tt, Sim.edge_at_third_look, [])
  /\ -1 <= 100
  /\ outcome_of (mexFunction 5 1 [5; 17; 100] Sim.edge_at_third_look) = Ret tt
  /\ exists rc pre gpio level tick rc' tail,
       trace_of (mexFunction 5 1 [5; 17; 100] Sim.edge_at_third_look)
       = [] ++ Vstore SENTINEL
            :: Call (GpioSetISRFunc 17 EITHER_EDGE 100 (Some IsrCallback)) rc
            :: pre
            ++ Isr IsrCallback gpio level tick :: Vload level
            :: Call (GpioSetISRFunc 17 EITHER_EDGE 100 None) rc' :: tail
       /\ level <> SENTINEL
       /\ forallb is_poll_event pre = true.
Proof.
  assert (H1 : init_phase Sim.edge_at_third_look
               = (Ret tt, Sim.edge_at_third_look, [])) by reflexivity.
  assert (H2 : -1 <= 100) by lia.
  assert (H3 : outcome_of (mexFunction 5 1 [5; 17; 100] Sim.edge_at_third_look)
               = Ret tt) by reflexivity.
  split; [exact H1|]. split; [exact H2|]. split; [exact H3|].
  exact (edge_wait_return_follows_callback 5 1 17 100 [] _ _ _ H1 H2 H3).
Defined.

Lemma edge_wait_ignores_stale_signal_witness :
  init_phase Sim.edge_at_third_look = (Ret tt, Sim.edge_at_third_look, [])
  /\ -1 <= 100
  /\ mexFunction 5 1 [5; 17; 100] (set_isrDone 2 Sim.edge_at_third_look)
     = mexFunction 5 1 [5; 17; 100] Sim.edge_at_third_look.
Proof.
  assert (H1 : init_phase Sim.edge_at_third_look
               = (Ret tt, Sim.edge_at_third_look, [])) by reflexivity.
  assert (H2 : -1 <= 100) by lia.
  split; [exact H1|]. split; [exact H2|].
  exact (edge_wait_ignores_stale_signal 5 1 17 100 [] 2 _ _ _ H1 H2).
Defined.

Lemma result_slot_assigned_witness :
  plhs0 Sim.idle = None
  /\ outcome_of (mexFunction 0 0 [0; 17] Sim.idle) = Ret tt
  /\ has_result (final (mexFunction 0 0 [0; 17] Sim.idle)) = true
  /\ outcome_of (mexFunction 0 1 [1; 17; 1] Sim.idle) = Ret tt
  /\ has_result (final (mexFunction 0 1 [1; 17; 1] Sim.idle)) = false.
Proof.
  assert (H1 : plhs0 Sim.idle = None) by reflexivity.
  assert (H2 : outcome_of (mexFunction 0 0 [0; 17] Sim.idle) = Ret tt)
    by reflexivity.
  assert (H3 : outcome_of (mexFunction 0 1 [1; 17; 1] Sim.idle) = Ret tt)
    by reflexivity.
  split; [exact H1|]. split; [exact H2|].
  split; [exact (result_slot_assigned 0 0 [0; 17] Sim.idle H1 H2)|].
  split; [exact H3|].
  exact (result_slot_assigned 0 1 [1; 17; 1] Sim.idle H1 H3).
Defined.

Lemma session_well_bracketed_witness :
  hook_matches_flag (initial_state Sim.no_root)
  /\ hook_matches_flag (initial_state (Sim.board []))
  /\ lifecycle
       (snd (session [Invoke 0 1 []; Flush] (initial_state Sim.no_root)))
     = []
  /\ well_bracketed false
       (lifecycle
          (snd (session [Invoke 0 1 []; Invoke 0 0 [9; 9]; Flush; Flush;
                         Invoke 0 1 [0; 17]; Flush]
                  (initial_state (Sim.board [])))))
     = true.
Proof.
  assert (H1 : hook_matches_flag (initial_state Sim.no_root)) by reflexivity.
  assert (H2 : hook_matches_flag (initial_state (Sim.board []))) by reflexivity.
  split; [exact H1|]. split; [exact H2|]. split; [reflexivity|].
  exact (proj1 (session_well_bracketed
                  [Invoke 0 1 []; Invoke 0 0 [9; 9]; Flush; Flush;
                   Invoke 0 1 [0; 17]; Flush]
                  (initial_state (Sim.board [])) H2)).
Defined.
